(** * CusparseLtLinear: a shallow embedding of
      aten/src/ATen/native/cuda/kernels.cpp

    The file wraps cusparseLt in a small stateful object with four methods
    (init, prune, compress, masked_mm).  Every CUDA and cusparseLt call goes
    through one of two macros, CHECK_CUDA and CHECK_CUSPARSE, which expand
    to TORCH_CHECK.  The embedding keeps that shape: a state-and-error monad
    whose state is the session object together with the device-side world
    (the calls issued so far and the live device allocations), the two
    macros as combinators, and the four methods written call by call in the
    order of the source. *)

From Stdlib Require Import ZArith List Bool Lia String.
From Stdlib Require Import DecimalString.
Import ListNotations.
Open Scope Z_scope.

(* ------------------------------------------------------------------ *)
(** ** Machine integers *)

(** [int64_t] arithmetic, two's complement wrap-around written out. *)
Definition wrap_i64 (z : Z) : Z := (z + 2 ^ 63) mod 2 ^ 64 - 2 ^ 63.

(** Conversion to [size_t] (64-bit unsigned). *)
Definition to_size_t (z : Z) : Z := z mod 2 ^ 64.

Definition in_i64 (z : Z) : Prop := - 2 ^ 63 <= z < 2 ^ 63.

(** [a * b] on [int64_t]. *)
Definition mul_i64 (a b : Z) : Z := wrap_i64 (a * b).

(** [a * b] where [a] is [int64_t] and [b] is a [sizeof], hence [size_t]:
    the usual arithmetic conversions make the product unsigned. *)
Definition mul_size_t (a b : Z) : Z := to_size_t (to_size_t a * b).

Definition sizeof_Half : Z := 2.
Definition sizeof_half : Z := 2.
Definition sizeof_float : Z := 4.
Definition sizeof_int : Z := 4.
Definition sizeof_int64 : Z := 8.
Definition sizeof_pointer : Z := 8.

(** The longest array of [__half] a new-expression builds: [PTRDIFF_MAX]
    bytes. *)
Definition max_half_array_length : Z := (2 ^ 63 - 1) / sizeof_half.

(* ------------------------------------------------------------------ *)
(** ** Statuses, enumerations, pointers *)

Definition cudaError_t := Z.
Definition cudaSuccess : cudaError_t := 0.

Definition cusparseStatus_t := Z.
Definition CUSPARSE_STATUS_SUCCESS : cusparseStatus_t := 0.

Inductive cusparseOperation_t :=
| CUSPARSE_OPERATION_NON_TRANSPOSE
| CUSPARSE_OPERATION_TRANSPOSE
| CUSPARSE_OPERATION_CONJUGATE_TRANSPOSE.

Inductive cusparseOrder_t := CUSPARSE_ORDER_COL | CUSPARSE_ORDER_ROW.

Inductive cudaDeviceAttr :=
| cudaDevAttrComputeCapabilityMajor
| cudaDevAttrComputeCapabilityMinor.

Inductive cudaMemcpyKind := cudaMemcpyHostToDevice | cudaMemcpyDeviceToHost.

Inductive cusparseLtMatDescAttribute_t :=
| CUSPARSELT_MAT_NUM_BATCHES
| CUSPARSELT_MAT_BATCH_STRIDE.

(** The three matrix descriptors of [init]: the session field
    [weight_descriptor] and the locals [activation_descriptor], [matC].
    Their contents are opaque to this file; calls name them. *)
Inductive MatDescriptor := weight_descriptor | activation_descriptor | matC.

(** A pointer value.  [Indeterminate] is the value of a pointer variable that
    was declared and never assigned (the program only ever passes such a
    value along); [Dev a] is device memory, [Host a] host memory, and
    [Stack x] the address of the local variable [x]. *)
Inductive Ptr :=
| Indeterminate
| nullptr
| Dev (a : Z)
| Host (a : Z)
| Stack (x : string).

Definition op_eqb (a b : cusparseOperation_t) : bool :=
  match a, b with
  | CUSPARSE_OPERATION_NON_TRANSPOSE, CUSPARSE_OPERATION_NON_TRANSPOSE => true
  | CUSPARSE_OPERATION_TRANSPOSE, CUSPARSE_OPERATION_TRANSPOSE => true
  | CUSPARSE_OPERATION_CONJUGATE_TRANSPOSE,
    CUSPARSE_OPERATION_CONJUGATE_TRANSPOSE => true
  | _, _ => false
  end.

Definition order_eqb (a b : cusparseOrder_t) : bool :=
  match a, b with
  | CUSPARSE_ORDER_COL, CUSPARSE_ORDER_COL => true
  | CUSPARSE_ORDER_ROW, CUSPARSE_ORDER_ROW => true
  | _, _ => false
  end.

(* ------------------------------------------------------------------ *)
(** ** Errors *)

(** [std::to_string] on an [int]. *)
Definition to_string (z : Z) : string := NilZero.string_of_int (Z.to_int z).

(** The message of the TORCH_CHECK on lines 73-76. *)
Definition capability_message (major_cc minor_cc : Z) : string :=
  ("cusparseLt is supported only on GPU devices with compute capability == 8.0, 8.6 current: "
     ++ to_string major_cc ++ "." ++ to_string minor_cc)%string.

(** The element type of a tensor, as far as this file tells types apart:
    [data_ptr<c10::Half>] wants [Half], [data_ptr<float>] wants [Float];
    [Undefined] is the type of an undefined tensor. *)
Inductive ScalarType :=
| Half
| Float
| Undefined
| OtherScalarType (code : Z).

Definition ScalarType_eqb (a b : ScalarType) : bool :=
  match a, b with
  | Half, Half => true
  | Float, Float => true
  | Undefined, Undefined => true
  | OtherScalarType x, OtherScalarType y => x =? y
  | _, _ => false
  end.

(** One constructor per place that can throw.  The first four are the
    TORCH_CHECKs of this file (each carries what its message is built
    from); the others are thrown by the language ([new]) and by the tensor
    accessors [size] and [data_ptr<T>]. *)
Inductive Error :=
| CudaApiFailed (line : Z) (status : cudaError_t)
    (* "CUDA API failed at line %d with error: %s (%d)\n", __LINE__,
       cudaGetErrorString(status), status *)
| CusparseApiFailed (line : Z) (status : cusparseStatus_t)
    (* "CUSPARSE API failed at line %d with error: %s (%d)\n", __LINE__,
       cusparseGetErrorString(status), status *)
| CapabilityNotSupported (msg : string)
    (* capability_message major_cc minor_cc *)
| PrunedInAWrongWay
    (* "!!!! The matrix has been pruned in a wrong way. cusparseLtMatmul
       will not provided correct results" *)
| BadArrayNewLength
    (* new __half[C_size]() with a negative C_size *)
| DimensionOutOfRange (dim : nat)
    (* Tensor::size(dim) on a tensor with too few dimensions *)
| BadAlloc
    (* new __half[C_size]() when the host has no room for the array *)
| ScalarTypeMismatch (expected found : ScalarType).
    (* Tensor::data_ptr<T>() on a tensor of another element type:
       "expected scalar type ... but found ..." *)

(** The error taxonomy of the design document, section 7. *)
Inductive ErrorKind :=
| DeviceUnsupported
| DeviceError
| LibraryError
| PruneValidationError
| ShapeMismatchError.

(** Which kind each throwing place of this file belongs to; the
    host-side exceptions are outside the taxonomy. *)
Definition kind_of (e : Error) : option ErrorKind :=
  match e with
  | CudaApiFailed _ _ => Some DeviceError
  | CusparseApiFailed _ _ => Some LibraryError
  | CapabilityNotSupported _ => Some DeviceUnsupported
  | PrunedInAWrongWay => Some PruneValidationError
  | BadArrayNewLength => None
  | DimensionOutOfRange _ => None
  | BadAlloc => None
  | ScalarTypeMismatch _ _ => None
  end.

Inductive Result (A : Type) :=
| Ok (a : A)
| Err (e : Error).
Arguments Ok {A} a.
Arguments Err {A} e.

Definition raises {A} (r : Result A) : bool :=
  match r with Ok _ => false | Err _ => true end.

(* ------------------------------------------------------------------ *)
(** ** Tensors and the session object *)

(** What this file reads of an [at::Tensor]: its sizes, its element type
    and its data pointer. *)
Record Tensor := {
  sizes : list Z;
  dtype : ScalarType;
  data_ptr : Ptr
}.

(** [struct CusparseLtLinear], lines 34-59.  [handle], [weight_descriptor]
    and [plan] are opaque cusparseLt objects that the methods only pass by
    address; they carry no data here. *)
Record CusparseLtLinear := {
  weight : Tensor;
  stream : Ptr;
  num_batches : Z;
  op_weight : cusparseOperation_t;
  op_activation : cusparseOperation_t;
  dA : Ptr;
  dB : Ptr;
  dC : Ptr;
  dD : Ptr;
  dA_compressed : Ptr;
  d_valid : Ptr
}.

(** The two constructors, lines 47-54: they initialise [stream],
    [num_batches] and the two operations, and leave every pointer member
    unassigned.  The default constructor leaves [weight] an undefined
    tensor. *)
Definition undefined_tensor : Tensor :=
  {| sizes := []; dtype := Undefined; data_ptr := nullptr |}.

Definition construct (w : Tensor) (nb : Z) : CusparseLtLinear :=
  {| weight := w; stream := nullptr; num_batches := nb;
     op_weight := CUSPARSE_OPERATION_NON_TRANSPOSE;
     op_activation := CUSPARSE_OPERATION_NON_TRANSPOSE;
     dA := Indeterminate; dB := Indeterminate; dC := Indeterminate;
     dD := Indeterminate; dA_compressed := Indeterminate;
     d_valid := Indeterminate |}.

Definition construct_default : CusparseLtLinear := construct undefined_tensor 1.

Definition set_dA (p : Ptr) (o : CusparseLtLinear) : CusparseLtLinear :=
  {| weight := weight o; stream := stream o; num_batches := num_batches o;
     op_weight := op_weight o; op_activation := op_activation o;
     dA := p; dB := dB o; dC := dC o; dD := dD o;
     dA_compressed := dA_compressed o; d_valid := d_valid o |}.

Definition set_dB (p : Ptr) (o : CusparseLtLinear) : CusparseLtLinear :=
  {| weight := weight o; stream := stream o; num_batches := num_batches o;
     op_weight := op_weight o; op_activation := op_activation o;
     dA := dA o; dB := p; dC := dC o; dD := dD o;
     dA_compressed := dA_compressed o; d_valid := d_valid o |}.

Definition set_dC (p : Ptr) (o : CusparseLtLinear) : CusparseLtLinear :=
  {| weight := weight o; stream := stream o; num_batches := num_batches o;
     op_weight := op_weight o; op_activation := op_activation o;
     dA := dA o; dB := dB o; dC := p; dD := dD o;
     dA_compressed := dA_compressed o; d_valid := d_valid o |}.

Definition set_dD (p : Ptr) (o : CusparseLtLinear) : CusparseLtLinear :=
  {| weight := weight o; stream := stream o; num_batches := num_batches o;
     op_weight := op_weight o; op_activation := op_activation o;
     dA := dA o; dB := dB o; dC := dC o; dD := p;
     dA_compressed := dA_compressed o; d_valid := d_valid o |}.

Definition set_dA_compressed (p : Ptr) (o : CusparseLtLinear) : CusparseLtLinear :=
  {| weight := weight o; stream := stream o; num_batches := num_batches o;
     op_weight := op_weight o; op_activation := op_activation o;
     dA := dA o; dB := dB o; dC := dC o; dD := dD o;
     dA_compressed := p; d_valid := d_valid o |}.

Definition set_d_valid (p : Ptr) (o : CusparseLtLinear) : CusparseLtLinear :=
  {| weight := weight o; stream := stream o; num_batches := num_batches o;
     op_weight := op_weight o; op_activation := op_activation o;
     dA := dA o; dB := dB o; dC := dC o; dD := dD o;
     dA_compressed := dA_compressed o; d_valid := p |}.

(* ------------------------------------------------------------------ *)
(** ** Calls that leave the process *)

(** One constructor per CUDA / cusparseLt entry point the file uses, with
    the arguments the file computes (the [&handle], [&plan], [&matmul] and
    [&alg_sel] arguments are the same objects at every call and are left
    out; so are the compile-time constants [type], [compute_type],
    [CUSPARSELT_SPARSITY_50_PERCENT], [CUSPARSELT_MATMUL_ALG_DEFAULT],
    [CUSPARSELT_PRUNE_SPMMA_STRIP] and the literal [1] / [true] that the
    prune and compress calls pass as their third argument).  [OperatorNewArray] is the host
    allocation [new __half[C_size]()], and [CapabilityChecked] marks the
    moment the TORCH_CHECK of lines 73-76 is evaluated. *)
Inductive Call :=
| CudaDeviceGetAttribute (attr : cudaDeviceAttr) (device : Z)
| CudaMalloc (size : Z)
| CudaMemcpy (dst src : Ptr) (count : Z) (kind : cudaMemcpyKind)
| CudaFree (devPtr : Ptr)
| OperatorNewArray (count : Z)
| CapabilityChecked (major_cc minor_cc : Z)
| CusparseLtInit
| CusparseLtStructuredDescriptorInit
    (d : MatDescriptor) (rows cols ld alignment : Z) (order : cusparseOrder_t)
| CusparseLtDenseDescriptorInit
    (d : MatDescriptor) (rows cols ld alignment : Z) (order : cusparseOrder_t)
| CusparseLtMatmulDescriptorInit
    (opA opB : cusparseOperation_t) (matA matB matC_ matD : MatDescriptor)
| CusparseLtMatmulAlgSelectionInit
| CusparseLtMatDescSetAttribute
    (d : MatDescriptor) (attr : cusparseLtMatDescAttribute_t)
    (data : Z) (dataSize : Z)
| CusparseLtMatmulDescSetAttribute_BIAS_POINTER (data : Ptr) (dataSize : Z)
| CusparseLtMatmulAlgSetAttribute_CONFIG_ID (data : Z) (dataSize : Z)
| CusparseLtMatmulGetWorkspace
| CusparseLtMatmulPlanInit (workspaceSize : Z)
| CusparseLtSpMMAPrune2
    (op : cusparseOperation_t) (d_in d_out : Ptr) (stream_ : Ptr)
| CusparseLtSpMMAPruneCheck2
    (op : cusparseOperation_t) (d_in d_valid_ : Ptr) (stream_ : Ptr)
| CusparseLtSpMMACompressedSize2
| CusparseLtSpMMACompress2
    (op : cusparseOperation_t) (d_dense d_compressed : Ptr) (stream_ : Ptr)
| CusparseLtMatmul
    (alpha : Z * Z) (d_A d_B : Ptr) (beta : Z * Z) (d_C d_D : Ptr)
    (workspace : Ptr) (streams : Ptr) (numStreams : Z).

(** A [float] literal as an exact fraction (numerator, denominator). *)
Definition float_1_0 : Z * Z := (1, 1).
Definition float_0_0 : Z * Z := (0, 1).

(* ------------------------------------------------------------------ *)
(** ** The world outside, and the state a method runs in *)

(** What the device and the two libraries answer.  [respond h c] is the
    status call [c] returns when the calls [h] came before it (latest
    first); [host_has_room n] tells whether the host allocator can provide
    an array of [n] half-precision elements; the other fields are the
    values successful calls write to their output argument, and what the
    unassigned [int] and [size_t] locals hold when a method starts. *)
Record Device := {
  respond : list Call -> Call -> Z;
  host_has_room : Z -> bool;
  attribute : cudaDeviceAttr -> Z -> Z;
  device_int : Ptr -> Z;
  workspace_bytes : Z;
  compressed_bytes : Z;
  stale_major_cc : Z;
  stale_minor_cc : Z;
  stale_workspace_size : Z;
  stale_compressed_size : Z
}.

(** [this] is the session object; [calls] the calls issued so far, latest
    first; [live] the device addresses [cudaMalloc] has handed out and
    [cudaFree] has not taken back; [next_dev] and [next_host] the next
    fresh addresses. *)
Record State := {
  this : CusparseLtLinear;
  calls : list Call;
  live : list Z;
  next_dev : Z;
  next_host : Z
}.

Definition with_this (f : CusparseLtLinear -> CusparseLtLinear) (s : State) : State :=
  {| this := f (this s); calls := calls s; live := live s;
     next_dev := next_dev s; next_host := next_host s |}.

Definition record (c : Call) (s : State) : State :=
  {| this := this s; calls := c :: calls s; live := live s;
     next_dev := next_dev s; next_host := next_host s |}.

Definition allocate (s : State) : State :=
  {| this := this s; calls := calls s; live := next_dev s :: live s;
     next_dev := next_dev s + 1; next_host := next_host s |}.

Definition release (p : Ptr) (s : State) : State :=
  match p with
  | Dev a =>
      {| this := this s; calls := calls s;
         live := filter (fun b => negb (b =? a)) (live s);
         next_dev := next_dev s; next_host := next_host s |}
  | _ => s
  end.

Definition host_allocate (s : State) : State :=
  {| this := this s; calls := calls s; live := live s;
     next_dev := next_dev s; next_host := next_host s + 1 |}.

(** A fresh process: nothing called, nothing allocated. *)
Definition boot (o : CusparseLtLinear) : State :=
  {| this := o; calls := []; live := []; next_dev := 1; next_host := 1 |}.

(* ------------------------------------------------------------------ *)
(** ** The monad: state that survives an exception *)

Definition M (A : Type) : Type := State -> Result A * State.

Definition ret {A} (a : A) : M A := fun s => (Ok a, s).

Definition raise {A} (e : Error) : M A := fun s => (Err e, s).

Definition bind {A B} (c : M A) (k : A -> M B) : M B :=
  fun s =>
    match c s with
    | (Ok a, s') => k a s'
    | (Err e, s') => (Err e, s')
    end.

Declare Scope m_scope.
Delimit Scope m_scope with M.
Notation "x <- c ;; k" := (bind c (fun x => k))
  (at level 61, c at next level, right associativity) : m_scope.
Notation "c ;; k" := (bind c (fun _ => k))
  (at level 61, right associativity) : m_scope.
Open Scope m_scope.

Definition get_this : M CusparseLtLinear := fun s => (Ok (this s), s).

Definition modify_this (f : CusparseLtLinear -> CusparseLtLinear) : M unit :=
  fun s => (Ok tt, with_this f s).

(** [Tensor::size(dim)] *)
Definition size (t : Tensor) (dim : nat) : M Z :=
  match nth_error (sizes t) dim with
  | Some v => ret v
  | None => raise (DimensionOutOfRange dim)
  end.

(** [Tensor::data_ptr<T>()]: the data pointer of a tensor whose element
    type is [T]; it throws on any other tensor. *)
Definition data_ptr_as (T : ScalarType) (t : Tensor) : M Ptr :=
  if ScalarType_eqb (dtype t) T then ret (data_ptr t)
  else raise (ScalarTypeMismatch T (dtype t)).

(* ------------------------------------------------------------------ *)
(** ** TORCH_CHECK and the two macros of lines 13-30 *)

(** Modelled from the spec: TORCH_CHECK is declared in c10/util/Exception.h,
    which is not among the sources.  [TORCH_CHECK(cond, msg...)] throws a
    [c10::Error] carrying the message when [cond] is false and does nothing
    when it is true.  That is the reading under which line 223,
    [TORCH_CHECK(h_is_valid == 0, "... pruned in a wrong way ...")], agrees
    with the design document (section 4.4: prune fails if the flag is
    nonzero). *)
Definition TORCH_CHECK (cond : bool) (e : Error) : M unit :=
  if cond then ret tt else raise e.

(** Lines 13-20.  [func] is the wrapped call: it yields its status and the
    value it leaves in its output argument. *)
Definition CHECK_CUDA {A} (line : Z) (func : M (cudaError_t * A)) : M A :=
  r <- func ;;
  let status := fst r in
  TORCH_CHECK (negb (status =? cudaSuccess)) (CudaApiFailed line status) ;;
  ret (snd r).

(** Lines 22-30. *)
Definition CHECK_CUSPARSE {A} (line : Z) (func : M (cusparseStatus_t * A)) : M A :=
  r <- func ;;
  let status := fst r in
  TORCH_CHECK (negb (status =? CUSPARSE_STATUS_SUCCESS))
              (CusparseApiFailed line status) ;;
  ret (snd r).

(** The TORCH_CHECK of lines 73-76, on its own. *)
Definition capability_gate (major_cc minor_cc : Z) : M unit :=
  TORCH_CHECK (negb ((major_cc =? 8) && (minor_cc =? 0)) &&
               negb ((major_cc =? 8) && (minor_cc =? 6)))
              (CapabilityNotSupported (capability_message major_cc minor_cc)).

(** The allowlist the message of lines 75-76 announces. *)
Definition allowlisted (major_cc minor_cc : Z) : bool :=
  ((major_cc =? 8) && (minor_cc =? 0)) || ((major_cc =? 8) && (minor_cc =? 6)).

(* ------------------------------------------------------------------ *)
(** ** Dimensions, leading dimensions, strides and byte counts
       (lines 83-112) *)

Record Layout := {
  batch_strideA : Z;
  batch_strideB : Z;
  batch_strideC : Z;
  num_A_rows : Z;
  num_A_cols : Z;
  num_B_rows : Z;
  num_B_cols : Z;
  num_C_rows : Z;
  num_C_cols : Z;
  alignment : Z;
  lda : Z;
  ldb : Z;
  ldc : Z;
  C_size : Z;
  A_size_bytes : Z;
  B_size_bytes : Z;
  C_size_bytes : Z
}.

(** [order] is the [constexpr] of line 88 made a parameter; [init] passes
    [CUSPARSE_ORDER_ROW]. *)
Definition layout (order : cusparseOrder_t) (o : CusparseLtLinear) (m k n : Z) : Layout :=
  let batch_strideA := mul_i64 m k in
  let batch_strideB := mul_i64 k n in
  let batch_strideC := mul_i64 m n in
  let is_rowmajor := order_eqb order CUSPARSE_ORDER_ROW in
  let isA_transposed := negb (op_eqb (op_weight o) CUSPARSE_OPERATION_NON_TRANSPOSE) in
  let isB_transposed := negb (op_eqb (op_activation o) CUSPARSE_OPERATION_NON_TRANSPOSE) in
  let num_A_rows := if isA_transposed then k else m in
  let num_A_cols := if isA_transposed then m else k in
  let num_B_rows := if isB_transposed then n else k in
  let num_B_cols := if isB_transposed then k else n in
  let num_C_rows := m in
  let num_C_cols := n in
  {| batch_strideA := batch_strideA;
     batch_strideB := batch_strideB;
     batch_strideC := batch_strideC;
     num_A_rows := num_A_rows;
     num_A_cols := num_A_cols;
     num_B_rows := num_B_rows;
     num_B_cols := num_B_cols;
     num_C_rows := num_C_rows;
     num_C_cols := num_C_cols;
     alignment := 16;
     lda := if is_rowmajor then num_A_cols else num_A_rows;
     ldb := if is_rowmajor then num_B_cols else num_B_rows;
     ldc := if is_rowmajor then num_C_cols else num_C_rows;
     C_size := mul_i64 (num_batches o) batch_strideC;
     A_size_bytes := mul_size_t (mul_i64 (num_batches o) batch_strideA) sizeof_Half;
     B_size_bytes := mul_size_t (mul_i64 (num_batches o) batch_strideB) sizeof_Half;
     C_size_bytes := mul_size_t (mul_i64 (num_batches o) batch_strideC) sizeof_half |}.

Definition order : cusparseOrder_t := CUSPARSE_ORDER_ROW.

(* ------------------------------------------------------------------ *)
(** ** The calls, and the four methods *)

Section Methods.

Variable dev : Device.

(** Issue a call: it is recorded, and the device answers with a status. *)
Definition call (c : Call) : M Z :=
  fun s => (Ok (respond dev (calls s) c), record c s).

(** Record the evaluation of a check (no status comes back). *)
Definition mark (c : Call) : M unit := fun s => (Ok tt, record c s).

(** A call without output argument. *)
Definition call_ (c : Call) : M (Z * unit) :=
  status <- call c ;; ret (status, tt).

(** A call that reports an error leaves its output argument as it was; a
    successful one writes it.  [value] is what the argument held. *)
Definition cudaDeviceGetAttribute
    (value : Z) (attr : cudaDeviceAttr) (device : Z) : M (cudaError_t * Z) :=
  status <- call (CudaDeviceGetAttribute attr device) ;;
  ret (status, if status =? cudaSuccess then attribute dev attr device else value).

(** [cudaMalloc(&p, size)] on a local [p] holding [devPtr]. *)
Definition cudaMalloc (devPtr : Ptr) (size_ : Z) : M (cudaError_t * Ptr) :=
  status <- call (CudaMalloc size_) ;;
  if status =? cudaSuccess
  then fun s => (Ok (status, Dev (next_dev s)), allocate s)
  else ret (status, devPtr).

(** [cudaMalloc(&field, size)] on a member of the session object. *)
Definition cudaMalloc_member
    (field : CusparseLtLinear -> Ptr)
    (set_field : Ptr -> CusparseLtLinear -> CusparseLtLinear)
    (size_ : Z) : M (cudaError_t * unit) :=
  self <- get_this ;;
  r <- cudaMalloc (field self) size_ ;;
  modify_this (set_field (snd r)) ;;
  ret (fst r, tt).

Definition cudaMemcpy (dst src : Ptr) (count : Z) (kind : cudaMemcpyKind)
  : M (cudaError_t * unit) :=
  call_ (CudaMemcpy dst src count kind).

(** [cudaMemcpy(&x, src, sizeof(int), cudaMemcpyDeviceToHost)] on the local
    [int x] holding [value]. *)
Definition cudaMemcpy_to_int (x : string) (value : Z) (src : Ptr)
  : M (cudaError_t * Z) :=
  status <- call (CudaMemcpy (Stack x) src sizeof_int cudaMemcpyDeviceToHost) ;;
  ret (status, if status =? cudaSuccess then device_int dev src else value).

Definition cudaFree (devPtr : Ptr) : M (cudaError_t * unit) :=
  status <- call (CudaFree devPtr) ;;
  if status =? cudaSuccess
  then fun s => (Ok (status, tt), release devPtr s)
  else ret (status, tt).

(** [new __half[count]()].  It throws [std::bad_array_new_length] when
    [count] is negative or the array would be larger than the largest
    object, [PTRDIFF_MAX] bytes; otherwise it asks the host allocator, and
    throws [std::bad_alloc] when that has no room. *)
Definition new_half_array (count : Z) : M Ptr :=
  if (count <? 0) || (max_half_array_length <? count)
  then raise BadArrayNewLength
  else if host_has_room dev count
  then fun s => (Ok (Host (next_host s)),
                 host_allocate (record (OperatorNewArray count) s))
  else raise BadAlloc.

Definition cusparseLtMatmulGetWorkspace (value : Z) : M (cusparseStatus_t * Z) :=
  status <- call CusparseLtMatmulGetWorkspace ;;
  ret (status, if status =? CUSPARSE_STATUS_SUCCESS then workspace_bytes dev else value).

Definition cusparseLtSpMMACompressedSize2 (value : Z) : M (cusparseStatus_t * Z) :=
  status <- call CusparseLtSpMMACompressedSize2 ;;
  ret (status, if status =? CUSPARSE_STATUS_SUCCESS then compressed_bytes dev else value).

(** Lines 66-204.  The line given to a macro is the line on which its
    invocation starts. *)
Definition init (gpu_index : Z) (activation res bias : Tensor) : M unit :=
  major_cc <- CHECK_CUDA 69
    (cudaDeviceGetAttribute (stale_major_cc dev) cudaDevAttrComputeCapabilityMajor 0) ;;
  minor_cc <- CHECK_CUDA 71
    (cudaDeviceGetAttribute (stale_minor_cc dev) cudaDevAttrComputeCapabilityMinor 0) ;;
  mark (CapabilityChecked major_cc minor_cc) ;;
  capability_gate major_cc minor_cc ;;
  self <- get_this ;;
  m <- size (weight self) 0 ;;
  k <- size (weight self) 1 ;;
  n <- size activation 0 ;;
  let L := layout order self m k n in
  hA <- data_ptr_as Half (weight self) ;;
  hB <- data_ptr_as Half activation ;;
  hC <- new_half_array (C_size L) ;;
  CHECK_CUDA 125 (cudaMalloc_member dA set_dA (A_size_bytes L)) ;;
  CHECK_CUDA 126 (cudaMalloc_member dB set_dB (B_size_bytes L)) ;;
  CHECK_CUDA 127 (cudaMalloc_member dC set_dC (C_size_bytes L)) ;;
  CHECK_CUDA 128 (cudaMalloc_member d_valid set_d_valid sizeof_pointer) ;;
  dD_ <- data_ptr_as Half res ;;
  modify_this (set_dD dD_) ;;
  self <- get_this ;;
  CHECK_CUDA 131 (cudaMemcpy (dA self) hA (A_size_bytes L) cudaMemcpyHostToDevice) ;;
  CHECK_CUDA 132 (cudaMemcpy (dB self) hB (B_size_bytes L) cudaMemcpyHostToDevice) ;;
  CHECK_CUDA 133 (cudaMemcpy (dC self) hC (C_size_bytes L) cudaMemcpyHostToDevice) ;;
  CHECK_CUSPARSE 138 (call_ CusparseLtInit) ;;
  CHECK_CUSPARSE 140 (call_ (CusparseLtStructuredDescriptorInit
    weight_descriptor (num_A_rows L) (num_A_cols L) (lda L) (alignment L) order)) ;;
  CHECK_CUSPARSE 143 (call_ (CusparseLtDenseDescriptorInit
    activation_descriptor (num_B_rows L) (num_B_cols L) (ldb L) (alignment L) order)) ;;
  CHECK_CUSPARSE 145 (call_ (CusparseLtDenseDescriptorInit
    matC (num_C_rows L) (num_C_cols L) (ldc L) (alignment L) order)) ;;
  CHECK_CUSPARSE 148 (call_ (CusparseLtMatmulDescriptorInit
    (op_weight self) (op_activation self)
    weight_descriptor activation_descriptor matC matC)) ;;
  CHECK_CUSPARSE 150 (call_ CusparseLtMatmulAlgSelectionInit) ;;
  CHECK_CUSPARSE 154 (call_ (CusparseLtMatDescSetAttribute
    weight_descriptor CUSPARSELT_MAT_NUM_BATCHES (num_batches self) sizeof_int)) ;;
  CHECK_CUSPARSE 157 (call_ (CusparseLtMatDescSetAttribute
    activation_descriptor CUSPARSELT_MAT_NUM_BATCHES (num_batches self) sizeof_int64)) ;;
  CHECK_CUSPARSE 160 (call_ (CusparseLtMatDescSetAttribute
    matC CUSPARSELT_MAT_NUM_BATCHES (num_batches self) sizeof_int64)) ;;
  CHECK_CUSPARSE 167 (call_ (CusparseLtMatDescSetAttribute
    weight_descriptor CUSPARSELT_MAT_BATCH_STRIDE (batch_strideA L) sizeof_int64)) ;;
  CHECK_CUSPARSE 171 (call_ (CusparseLtMatDescSetAttribute
    activation_descriptor CUSPARSELT_MAT_BATCH_STRIDE (batch_strideB L) sizeof_int64)) ;;
  CHECK_CUSPARSE 175 (call_ (CusparseLtMatDescSetAttribute
    matC CUSPARSELT_MAT_BATCH_STRIDE (batch_strideC L) sizeof_int64)) ;;
  CHECK_CUSPARSE 180 (call_ (CusparseLtMatmulDescriptorInit
    (op_weight self) (op_activation self)
    weight_descriptor activation_descriptor matC matC)) ;;
  hBias <- data_ptr_as Float bias ;;
  dBias <- CHECK_CUDA 188 (cudaMalloc Indeterminate (mul_size_t m sizeof_float)) ;;
  CHECK_CUDA 189 (cudaMemcpy dBias hBias (mul_size_t m sizeof_float)
                             cudaMemcpyHostToDevice) ;;
  CHECK_CUSPARSE 191 (call_ (CusparseLtMatmulDescSetAttribute_BIAS_POINTER
    dBias sizeof_pointer)) ;;
  let alg := 0 in
  CHECK_CUSPARSE 196 (call_ (CusparseLtMatmulAlgSetAttribute_CONFIG_ID alg sizeof_int)) ;;
  workspace_size <- CHECK_CUSPARSE 199
    (cusparseLtMatmulGetWorkspace (stale_workspace_size dev)) ;;
  CHECK_CUSPARSE 202 (call_ (CusparseLtMatmulPlanInit workspace_size)).

(** Lines 207-225. *)
Definition prune : M unit :=
  self <- get_this ;;
  CHECK_CUSPARSE 212 (call_ (CusparseLtSpMMAPrune2
    (op_weight self) (dA self) (dA self) (stream self))) ;;
  is_valid <- CHECK_CUDA 216 (cudaMalloc Indeterminate sizeof_int) ;;
  CHECK_CUSPARSE 217 (call_ (CusparseLtSpMMAPruneCheck2
    (op_weight self) (dA self) is_valid (stream self))) ;;
  let h_is_valid := 0 in
  h_is_valid <- CHECK_CUDA 220 (cudaMemcpy_to_int "h_is_valid" h_is_valid is_valid) ;;
  CHECK_CUDA 221 (cudaFree is_valid) ;;
  TORCH_CHECK (h_is_valid =? 0) PrunedInAWrongWay.

(** Lines 227-237. *)
Definition compress : M unit :=
  compressed_size <- CHECK_CUSPARSE 231
    (cusparseLtSpMMACompressedSize2 (stale_compressed_size dev)) ;;
  CHECK_CUDA 233 (cudaMalloc_member dA_compressed set_dA_compressed compressed_size) ;;
  self <- get_this ;;
  CHECK_CUSPARSE 235 (call_ (CusparseLtSpMMACompress2
    (op_weight self) (dA self) (dA_compressed self) (stream self))).

(** Lines 240-262. *)
Definition masked_mm : M unit :=
  let d_workspace := nullptr in
  let num_streams := 0 in
  let streams := nullptr in
  let alpha := float_1_0 in
  let beta := float_0_0 in
  self <- get_this ;;
  CHECK_CUSPARSE 250 (call_ (CusparseLtMatmul
    alpha (dA_compressed self) (dB self) beta (dC self) (dD self)
    d_workspace streams num_streams)).

End Methods.

(** The struct declares no destructor (lines 34-59): destroying a session
    runs the implicit one, which drops the [weight] reference and does
    nothing for the raw pointers, the handle, the descriptor and the plan.
    What is left is the world without the session object. *)
Record World := {
  issued : list Call;
  allocated : list Z
}.

Definition destroy (s : State) : World :=
  {| issued := calls s; allocated := live s |}.

(* ------------------------------------------------------------------ *)
(** ** Three devices to run the methods on *)

(** A healthy device: every call succeeds.  [major] and [minor] are its
    compute capability, [flag] what the prune check leaves in device
    memory. *)
Definition healthy (major minor flag : Z) : Device :=
  {| respond := fun _ _ => 0;
     host_has_room := fun _ => true;
     attribute := fun a _ =>
       match a with
       | cudaDevAttrComputeCapabilityMajor => major
       | cudaDevAttrComputeCapabilityMinor => minor
       end;
     device_int := fun _ => flag;
     workspace_bytes := 0;
     compressed_bytes := 1024;
     stale_major_cc := 0; stale_minor_cc := 0;
     stale_workspace_size := 0; stale_compressed_size := 0 |}.

(** A device on which every call reports error 1; the unassigned locals
    [major_cc], [minor_cc] hold [major], [minor]. *)
Definition failing (major minor flag : Z) : Device :=
  {| respond := fun _ _ => 1;
     host_has_room := fun _ => true;
     attribute := fun _ _ => 0;
     device_int := fun _ => flag;
     workspace_bytes := 0;
     compressed_bytes := 1024;
     stale_major_cc := major; stale_minor_cc := minor;
     stale_workspace_size := 0; stale_compressed_size := 0 |}.

(** A device on which [cudaMalloc] of [bytes] bytes succeeds and every
    other call reports error 1. *)
Definition only_malloc (bytes : Z) : Device :=
  {| respond := fun _ c =>
       match c with
       | CudaMalloc n => if n =? bytes then 0 else 1
       | _ => 1
       end;
     host_has_room := fun _ => true;
     attribute := fun _ _ => 0;
     device_int := fun _ => 0;
     workspace_bytes := 0;
     compressed_bytes := 1024;
     stale_major_cc := 0; stale_minor_cc := 0;
     stale_workspace_size := 0; stale_compressed_size := 0 |}.

(** A 2 x 4 weight, a 3 x 5 activation, an output and a bias. *)
Definition weight_2x4 : Tensor :=
  {| sizes := [2; 4]; dtype := Half; data_ptr := Host 100 |}.
Definition activation_3x5 : Tensor :=
  {| sizes := [3; 5]; dtype := Half; data_ptr := Host 200 |}.
Definition activation_3x4 : Tensor :=
  {| sizes := [3; 4]; dtype := Half; data_ptr := Host 200 |}.
Definition output_2x3 : Tensor :=
  {| sizes := [2; 3]; dtype := Half; data_ptr := Dev 900 |}.
Definition bias_2 : Tensor :=
  {| sizes := [2]; dtype := Float; data_ptr := Host 300 |}.

(* ------------------------------------------------------------------ *)
(** ** Named runs *)

Definition fresh_session : State := boot (construct weight_2x4 1).

(** [init] on the device whose calls all fail: the one kind of device on
    which it completes. *)
Definition completed_init : Result unit * State :=
  init (failing 0 0 0) 0 activation_3x4 output_2x3 bias_2 fresh_session.

Definition session_after_init : State := snd completed_init.

Definition session_after_masked_mm : State :=
  snd (masked_mm (failing 0 0 0) session_after_init).

(** [init] with the 3 x 5 activation, on the same device and on one where
    the first [cudaMalloc] (16 bytes for the 2 x 4 weight) succeeds. *)
Definition mismatched_init : Result unit * State :=
  init (failing 0 0 0) 0 activation_3x5 output_2x3 bias_2 fresh_session.

Definition mismatched_init_allocating : Result unit * State :=
  init (only_malloc 16) 0 activation_3x5 output_2x3 bias_2 fresh_session.

(** [init] on a device where the [cudaMalloc] of [dA] succeeds, and on one
    where that of [d_valid] (8 bytes) is the first to succeed; [prune]
    after the latter, and [prune] on a device where its own 4-byte
    [cudaMalloc] succeeds. *)
Definition init_allocating_dA : Result unit * State :=
  init (only_malloc 16) 0 activation_3x4 output_2x3 bias_2 fresh_session.

Definition init_allocating_d_valid : Result unit * State :=
  init (only_malloc 8) 0 activation_3x4 output_2x3 bias_2 fresh_session.

Definition prune_after_d_valid : Result unit * State :=
  prune (only_malloc 8) (snd init_allocating_d_valid).

Definition prune_allocating_is_valid : Result unit * State :=
  prune (only_malloc 4) fresh_session.

(* ------------------------------------------------------------------ *)
(** ** Predicates on results and on calls *)

(** The runs of prune that get as far as the verdict of line 223. *)
Definition reached_verdict (r : Result unit) : bool :=
  match r with
  | Ok _ => true
  | Err PrunedInAWrongWay => true
  | Err _ => false
  end.

Definition is_free (c : Call) : bool :=
  match c with CudaFree _ => true | _ => false end.

Definition allocates_or_describes (c : Call) : bool :=
  match c with
  | CudaMalloc _ => true
  | OperatorNewArray _ => true
  | CusparseLtStructuredDescriptorInit _ _ _ _ _ _ => true
  | CusparseLtDenseDescriptorInit _ _ _ _ _ _ => true
  | CusparseLtMatmulDescriptorInit _ _ _ _ _ _ => true
  | _ => false
  end.

Definition is_capability_check (c : Call) : bool :=
  match c with CapabilityChecked _ _ => true | _ => false end.

(** On calls in the order they were issued: nothing that allocates or
    builds a descriptor comes before the capability check. *)
Fixpoint capability_checked_first (chron : list Call) : bool :=
  match chron with
  | [] => true
  | c :: rest =>
      if is_capability_check c then true
      else negb (allocates_or_describes c) && capability_checked_first rest
  end.

Definition on_device_0 (c : Call) : bool :=
  match c with
  | CudaDeviceGetAttribute _ device => device =? 0
  | _ => true
  end.

(* ------------------------------------------------------------------ *)
(** ** Weakest preconditions for the monad

    [wp c Q s] says that running [c] from [s] ends in a result and a state
    that satisfy [Q]. *)

Definition wp {A} (c : M A) (Q : Result A -> State -> Prop) (s : State) : Prop :=
  Q (fst (c s)) (snd (c s)).

(* ------------------------------------------------------------------ *)
(** ** The registered methods, and the sessions they can produce *)

(** Lines 274-282: the class is registered with its four methods.  A call
    through the binding names one of them with its arguments. *)
Inductive Method :=
| def_init (gpu_index : Z) (activation res bias : Tensor)
| def_prune
| def_compress
| def_masked_mm.

Definition invoke (dev : Device) (f : Method) : M unit :=
  match f with
  | def_init gpu_index activation res bias => init dev gpu_index activation res bias
  | def_prune => prune dev
  | def_compress => compress dev
  | def_masked_mm => masked_mm dev
  end.

(** The states a session can be in: freshly constructed in a fresh
    process, or after one more method call, on any device, whether the
    call threw or not (no method looks at what was called before). *)
Inductive reachable : State -> Prop :=
| reachable_construct (w : Tensor) (nb : Z) :
    reachable (boot (construct w nb))
| reachable_invoke (dev : Device) (f : Method) (s : State) :
    reachable s -> reachable (snd (invoke dev f s)).

(** [masked_mm] called [n] times in a row. *)
Fixpoint masked_mm_times (dev : Device) (n : nat) (s : State) : State :=
  match n with
  | O => s
  | S n' => snd (masked_mm dev (masked_mm_times dev n' s))
  end.

(** The call [masked_mm] issues from a session. *)
Definition matmul_call (o : CusparseLtLinear) : Call :=
  CusparseLtMatmul float_1_0 (dA_compressed o) (dB o) float_0_0 (dC o) (dD o)
    nullptr nullptr 0.

(* ------------------------------------------------------------------ *)
(** ** More predicates on sessions, results and calls *)

(** A pointer member is either still unassigned or holds a live block. *)
Definition owned (s : State) (p : Ptr) : Prop :=
  p = Indeterminate \/ exists a, p = Dev a /\ In a (live s).

(** Two pointer members do not hold the same block. *)
Definition apart (p q : Ptr) : Prop :=
  forall a b, p = Dev a -> q = Dev b -> a <> b.

(** The calls that come back with a status (the host allocation and the
    mark of the capability check do not). *)
Definition answered (c : Call) : bool :=
  match c with
  | OperatorNewArray _ => false
  | CapabilityChecked _ _ => false
  | _ => true
  end.

(** [seg] is a run's calls, latest first, issued after the calls [base]:
    every one of them that was answered was answered with an error. *)
Fixpoint every_call_failed (dev : Device) (seg base : list Call) : Prop :=
  match seg with
  | [] => True
  | c :: earlier =>
      (answered c = true -> respond dev (earlier ++ base) c <> 0) /\
      every_call_failed dev earlier base
  end.

(** The status an error of one of the two macros reports is 0. *)
Definition reports_status_0 (r : Result unit) : Prop :=
  match r with
  | Err (CudaApiFailed _ status) => status = 0
  | Err (CusparseApiFailed _ status) => status = 0
  | _ => True
  end.

Definition is_malloc (c : Call) : bool :=
  match c with CudaMalloc _ => true | _ => false end.

Definition is_host_new (c : Call) : bool :=
  match c with OperatorNewArray _ => true | _ => false end.

(** The sizes of the [cudaMalloc] calls and the byte counts of the
    host-to-device copies among [chron], in order. *)
Fixpoint malloc_sizes (chron : list Call) : list Z :=
  match chron with
  | [] => []
  | CudaMalloc n :: rest => n :: malloc_sizes rest
  | _ :: rest => malloc_sizes rest
  end.

Fixpoint upload_counts (chron : list Call) : list Z :=
  match chron with
  | [] => []
  | CudaMemcpy _ _ n cudaMemcpyHostToDevice :: rest => n :: upload_counts rest
  | _ :: rest => upload_counts rest
  end.

(** The calls into cusparseLt. *)
Definition is_cusparseLt (c : Call) : bool :=
  match c with
  | CudaDeviceGetAttribute _ _ => false
  | CudaMalloc _ => false
  | CudaMemcpy _ _ _ _ => false
  | CudaFree _ => false
  | OperatorNewArray _ => false
  | CapabilityChecked _ _ => false
  | _ => true
  end.

Definition is_handle_init (c : Call) : bool :=
  match c with CusparseLtInit => true | _ => false end.

Definition is_matrix_descriptor_init (d : MatDescriptor) (c : Call) : bool :=
  match c, d with
  | CusparseLtStructuredDescriptorInit weight_descriptor _ _ _ _ _, weight_descriptor => true
  | CusparseLtDenseDescriptorInit activation_descriptor _ _ _ _ _, activation_descriptor => true
  | CusparseLtDenseDescriptorInit matC _ _ _ _ _, matC => true
  | _, _ => false
  end.

Definition is_matmul_descriptor_init (c : Call) : bool :=
  match c with CusparseLtMatmulDescriptorInit _ _ _ _ _ _ => true | _ => false end.

Definition is_alg_selection_init (c : Call) : bool :=
  match c with CusparseLtMatmulAlgSelectionInit => true | _ => false end.

Definition is_get_workspace (c : Call) : bool :=
  match c with CusparseLtMatmulGetWorkspace => true | _ => false end.

Definition is_plan_init (c : Call) : bool :=
  match c with CusparseLtMatmulPlanInit _ => true | _ => false end.

Definition is_upload (c : Call) : bool :=
  match c with CudaMemcpy _ _ _ cudaMemcpyHostToDevice => true | _ => false end.

(** On calls in the order they were issued: no [target] call comes before
    the first [need] call. *)
Fixpoint preceded (need target : Call -> bool) (chron : list Call) : bool :=
  match chron with
  | [] => true
  | c :: rest =>
      if target c then false
      else if need c then true
      else preceded need target rest
  end.

(** The same, as a statement about every place of the sequence. *)
Definition comes_after (need target : Call -> bool) (chron : list Call) : Prop :=
  forall pre c post,
    chron = pre ++ c :: post ->
    target c = true ->
    exists x, In x pre /\ need x = true.

(* ------------------------------------------------------------------ *)
(** ** The blocks a session holds *)

(** The pointer members that [cudaMalloc] writes ([dD] is not one of them:
    it is assigned the output tensor's storage). *)
Definition member_blocks (o : CusparseLtLinear) : list Ptr :=
  [dA o; dB o; dC o; d_valid o; dA_compressed o].

(** [l] with its [i]-th pointer replaced by [p] (unchanged when [i] is
    past the end). *)
Fixpoint store (i : nat) (p : Ptr) (l : list Ptr) : list Ptr :=
  match l, i with
  | [], _ => []
  | _ :: rest, O => p :: rest
  | q :: rest, S i' => q :: store i' p rest
  end.

(** What one method call does to the blocks: nothing, or it allocates the
    next fresh block and stores it in at most one member. *)
Inductive block_effect (s s' : State) : Prop :=
| no_block :
    live s' = live s ->
    next_dev s' = next_dev s ->
    member_blocks (this s') = member_blocks (this s) ->
    block_effect s s'
| new_block (i : nat) :
    live s' = next_dev s :: live s ->
    next_dev s' = next_dev s + 1 ->
    member_blocks (this s')
    = store i (Dev (next_dev s)) (member_blocks (this s)) ->
    block_effect s s'.

Definition well_kept (s : State) : Prop :=
  (forall a, In a (live s) -> a < next_dev s) /\
  NoDup (live s) /\
  Forall (owned s) (member_blocks (this s)) /\
  ForallOrdPairs apart (member_blocks (this s)) /\
  op_weight (this s) = CUSPARSE_OPERATION_NON_TRANSPOSE /\
  op_activation (this s) = CUSPARSE_OPERATION_NON_TRANSPOSE /\
  stream (this s) = nullptr.

(** A session with a negative batch count, and [init] on it. *)
Definition negative_batches_session : State := boot (construct weight_2x4 (-1)).

(** A session that went through a throwing [init] and then [compress]. *)
Definition session_after_two_calls : State :=
  snd (invoke (only_malloc 0) def_compress
         (snd (invoke (only_malloc 16)
                 (def_init 0 activation_3x4 output_2x3 bias_2) fresh_session))).

(* ------------------------------------------------------------------ *)
(** ** What the descriptor calls are given *)





(* ================================================================== *)
(** * Proofs *)

Arguments mul_i64 : simpl never.
Arguments mul_size_t : simpl never.
Arguments capability_message : simpl never.
Arguments max_half_array_length : simpl never.
Arguments layout : simpl never.

(* ------------------------------------------------------------------ *)
(** ** Running a short method symbolically *)

Ltac unfold_methods :=
  unfold prune, compress, masked_mm, init, CHECK_CUDA, CHECK_CUSPARSE,
    capability_gate, TORCH_CHECK, cudaMalloc_member, cudaMalloc, cudaMemcpy,
    cudaMemcpy_to_int, cudaFree, cudaDeviceGetAttribute, new_half_array,
    data_ptr_as,
    cusparseLtMatmulGetWorkspace, cusparseLtSpMMACompressedSize2,
    call_, call, mark, get_this, modify_this, size, bind, ret, raise,
    cudaSuccess, CUSPARSE_STATUS_SUCCESS.

(** One branching point of the run: the status of a call, the sizes of a
    tensor, or a test on values. *)
Ltac fork :=
  match goal with
  | |- context [respond ?d ?h ?c =? 0] =>
      let E := fresh "E" in
      destruct (respond d h c =? 0) eqn:E; cbn; rewrite ?E
  | |- context [match sizes ?t with _ => _ end] =>
      let E := fresh "E" in destruct (sizes t) eqn:E
  | |- context [match ?l with [] => _ | _ :: _ => _ end] =>
      is_var l; destruct l
  | |- context [if ?b then _ else _] =>
      let E := fresh "E" in destruct b eqn:E
  end.

Ltac run := unfold_methods; repeat (cbn; try fork); cbn.

Lemma extends_nil (t : list Call) : t = [] ++ t.
Proof. reflexivity. Qed.

Lemma extends_cons (c : Call) (l seg t : list Call) :
  l = seg ++ t -> c :: l = (c :: seg) ++ t.
Proof. intros ->; reflexivity. Qed.

(** Solves [l = ?seg ++ t] when [l] is [t] with calls consed on. *)
Ltac segment :=
  repeat first [ exact (extends_nil _) | apply extends_cons ].

(* ------------------------------------------------------------------ *)
(** ** The condition of the capability gate *)

Lemma allowlisted_spec (major_cc minor_cc : Z) :
  allowlisted major_cc minor_cc = true <->
  (major_cc = 8 /\ minor_cc = 0) \/ (major_cc = 8 /\ minor_cc = 6).
Proof.
  unfold allowlisted.
  rewrite orb_true_iff, !andb_true_iff, !Z.eqb_eq. reflexivity.
Qed.

Lemma capability_gate_condition (major_cc minor_cc : Z) :
  negb ((major_cc =? 8) && (minor_cc =? 0)) &&
  negb ((major_cc =? 8) && (minor_cc =? 6)) = negb (allowlisted major_cc minor_cc).
Proof. unfold allowlisted. now rewrite negb_orb. Qed.

(* ------------------------------------------------------------------ *)
(** ** Rules of the weakest-precondition calculus, one per way the
       methods are built *)

Lemma wp_run {A} (c : M A) (Q : Result A -> State -> Prop) (s : State) :
  wp c Q s -> Q (fst (c s)) (snd (c s)).
Proof. exact (fun H => H). Qed.

Lemma wp_ret {A} (a : A) (Q : Result A -> State -> Prop) (s : State) :
  Q (Ok a) s -> wp (ret a) Q s.
Proof. exact (fun H => H). Qed.

Lemma wp_bind {A B} (c : M A) (k : A -> M B) (Q : Result B -> State -> Prop) (s : State) :
  wp c (fun r s' => match r with
                    | Ok a => wp (k a) Q s'
                    | Err e => Q (Err e) s'
                    end) s ->
  wp (bind c k) Q s.
Proof.
  unfold wp, bind. destruct (c s) as [[a|e] s']; cbn; auto.
Qed.

Lemma wp_get_this (Q : Result CusparseLtLinear -> State -> Prop) (s : State) :
  Q (Ok (this s)) s -> wp get_this Q s.
Proof. exact (fun H => H). Qed.

Lemma wp_modify_this f (Q : Result unit -> State -> Prop) (s : State) :
  Q (Ok tt) (with_this f s) -> wp (modify_this f) Q s.
Proof. exact (fun H => H). Qed.

Lemma wp_size (t : Tensor) (dim : nat) (Q : Result Z -> State -> Prop) (s : State) :
  match nth_error (sizes t) dim with
  | Some v => Q (Ok v) s
  | None => Q (Err (DimensionOutOfRange dim)) s
  end ->
  wp (size t dim) Q s.
Proof. unfold wp, size. destruct (nth_error (sizes t) dim); auto. Qed.

Lemma wp_data_ptr_as (T : ScalarType) (t : Tensor)
    (Q : Result Ptr -> State -> Prop) (s : State) :
  (ScalarType_eqb (dtype t) T = false ->
   Q (Err (ScalarTypeMismatch T (dtype t))) s) ->
  (ScalarType_eqb (dtype t) T = true -> Q (Ok (data_ptr t)) s) ->
  wp (data_ptr_as T t) Q s.
Proof.
  unfold wp, data_ptr_as. destruct (ScalarType_eqb (dtype t) T); cbn; auto.
Qed.

Lemma wp_capability_gate (major_cc minor_cc : Z)
    (Q : Result unit -> State -> Prop) (s : State) :
  (allowlisted major_cc minor_cc = true ->
   Q (Err (CapabilityNotSupported (capability_message major_cc minor_cc))) s) ->
  (allowlisted major_cc minor_cc = false -> Q (Ok tt) s) ->
  wp (capability_gate major_cc minor_cc) Q s.
Proof.
  unfold wp, capability_gate, TORCH_CHECK. rewrite capability_gate_condition.
  destruct (allowlisted major_cc minor_cc); cbn; auto.
Qed.

(** The two ways a status can go. *)
Ltac status_cases st :=
  let Eb := fresh "Eb" in
  destruct (st =? 0) eqn:Eb; cbn; rewrite ?Eb; cbn;
  [ apply Z.eqb_eq in Eb; rewrite ?Eb; auto
  | apply Z.eqb_neq in Eb; auto ].

Section Rules.

Variable dev : Device.

Lemma wp_mark (c : Call) (Q : Result unit -> State -> Prop) (s : State) :
  Q (Ok tt) (record c s) -> wp (mark c) Q s.
Proof. exact (fun H => H). Qed.

Lemma wp_new_half_array (count : Z) (Q : Result Ptr -> State -> Prop) (s : State) :
  (count < 0 \/ max_half_array_length < count -> Q (Err BadArrayNewLength) s) ->
  (0 <= count <= max_half_array_length /\ host_has_room dev count = false ->
   Q (Err BadAlloc) s) ->
  (0 <= count <= max_half_array_length /\ host_has_room dev count = true ->
   Q (Ok (Host (next_host s))) (host_allocate (record (OperatorNewArray count) s))) ->
  wp (new_half_array dev count) Q s.
Proof.
  intros Hlen Hroom Hok. unfold wp, new_half_array.
  destruct (count <? 0) eqn:Hneg.
  - apply Hlen. left. apply Z.ltb_lt. exact Hneg.
  - destruct (max_half_array_length <? count) eqn:Hbig.
    + apply Hlen. right. apply Z.ltb_lt. exact Hbig.
    + apply Z.ltb_ge in Hneg, Hbig.
      destruct (host_has_room dev count) eqn:Hhost.
      * apply Hok. repeat split; assumption.
      * apply Hroom. repeat split; assumption.
Qed.

(** A wrapped call without output argument: the macro throws when the
    status is 0 and goes on otherwise; the call is recorded either way. *)
Lemma wp_CHECK_CUSPARSE_call (line : Z) (c : Call)
    (Q : Result unit -> State -> Prop) (s : State) :
  (respond dev (calls s) c = 0 ->
   Q (Err (CusparseApiFailed line 0)) (record c s)) ->
  (respond dev (calls s) c <> 0 -> Q (Ok tt) (record c s)) ->
  wp (CHECK_CUSPARSE line (call_ dev c)) Q s.
Proof.
  unfold wp, CHECK_CUSPARSE, call_, call, TORCH_CHECK, bind, ret, raise,
    CUSPARSE_STATUS_SUCCESS; cbn.
  status_cases (respond dev (calls s) c).
Qed.

Lemma wp_CHECK_CUDA_cudaMemcpy (line : Z) (dst src : Ptr) (count : Z)
    (kind : cudaMemcpyKind) (Q : Result unit -> State -> Prop) (s : State) :
  (respond dev (calls s) (CudaMemcpy dst src count kind) = 0 ->
   Q (Err (CudaApiFailed line 0)) (record (CudaMemcpy dst src count kind) s)) ->
  (respond dev (calls s) (CudaMemcpy dst src count kind) <> 0 ->
   Q (Ok tt) (record (CudaMemcpy dst src count kind) s)) ->
  wp (CHECK_CUDA line (cudaMemcpy dev dst src count kind)) Q s.
Proof.
  unfold wp, CHECK_CUDA, cudaMemcpy, call_, call, TORCH_CHECK, bind, ret, raise,
    cudaSuccess; cbn.
  status_cases (respond dev (calls s) (CudaMemcpy dst src count kind)).
Qed.

(** A capability query: passing the macro means the query failed, and the
    local keeps the value it had. *)
Lemma wp_CHECK_CUDA_cudaDeviceGetAttribute (line value : Z)
    (attr : cudaDeviceAttr) (device : Z)
    (Q : Result Z -> State -> Prop) (s : State) :
  (respond dev (calls s) (CudaDeviceGetAttribute attr device) = 0 ->
   Q (Err (CudaApiFailed line 0)) (record (CudaDeviceGetAttribute attr device) s)) ->
  (respond dev (calls s) (CudaDeviceGetAttribute attr device) <> 0 ->
   Q (Ok value) (record (CudaDeviceGetAttribute attr device) s)) ->
  wp (CHECK_CUDA line (cudaDeviceGetAttribute dev value attr device)) Q s.
Proof.
  unfold wp, CHECK_CUDA, cudaDeviceGetAttribute, call, TORCH_CHECK, bind, ret,
    raise, cudaSuccess; cbn.
  status_cases (respond dev (calls s) (CudaDeviceGetAttribute attr device)).
Qed.

(** [cudaMalloc] into a local: when the allocation succeeds the macro
    throws and the fresh block stays live; when it fails the run goes on
    with the pointer as it was. *)
Lemma wp_CHECK_CUDA_cudaMalloc (line : Z) (devPtr : Ptr) (size_ : Z)
    (Q : Result Ptr -> State -> Prop) (s : State) :
  (respond dev (calls s) (CudaMalloc size_) = 0 ->
   Q (Err (CudaApiFailed line 0)) (allocate (record (CudaMalloc size_) s))) ->
  (respond dev (calls s) (CudaMalloc size_) <> 0 ->
   Q (Ok devPtr) (record (CudaMalloc size_) s)) ->
  wp (CHECK_CUDA line (cudaMalloc dev devPtr size_)) Q s.
Proof.
  unfold wp, CHECK_CUDA, cudaMalloc, call, TORCH_CHECK, bind, ret, raise,
    cudaSuccess; cbn.
  status_cases (respond dev (calls s) (CudaMalloc size_)).
Qed.

(** [cudaMalloc] into a member: as above, and in the throwing case the
    member already holds the fresh address. *)
Lemma wp_CHECK_CUDA_cudaMalloc_member (line : Z)
    (field : CusparseLtLinear -> Ptr)
    (set_field : Ptr -> CusparseLtLinear -> CusparseLtLinear) (size_ : Z)
    (Q : Result unit -> State -> Prop) (s : State) :
  (respond dev (calls s) (CudaMalloc size_) = 0 ->
   Q (Err (CudaApiFailed line 0))
     (with_this (set_field (Dev (next_dev s))) (allocate (record (CudaMalloc size_) s)))) ->
  (respond dev (calls s) (CudaMalloc size_) <> 0 ->
   Q (Ok tt) (with_this (set_field (field (this s))) (record (CudaMalloc size_) s))) ->
  wp (CHECK_CUDA line (cudaMalloc_member dev field set_field size_)) Q s.
Proof.
  unfold wp, CHECK_CUDA, cudaMalloc_member, cudaMalloc, call, get_this,
    modify_this, TORCH_CHECK, bind, ret, raise, cudaSuccess; cbn.
  status_cases (respond dev (calls s) (CudaMalloc size_)).
Qed.

Lemma wp_CHECK_CUSPARSE_cusparseLtMatmulGetWorkspace (line value : Z)
    (Q : Result Z -> State -> Prop) (s : State) :
  (respond dev (calls s) CusparseLtMatmulGetWorkspace = 0 ->
   Q (Err (CusparseApiFailed line 0)) (record CusparseLtMatmulGetWorkspace s)) ->
  (respond dev (calls s) CusparseLtMatmulGetWorkspace <> 0 ->
   Q (Ok value) (record CusparseLtMatmulGetWorkspace s)) ->
  wp (CHECK_CUSPARSE line (cusparseLtMatmulGetWorkspace dev value)) Q s.
Proof.
  unfold wp, CHECK_CUSPARSE, cusparseLtMatmulGetWorkspace, call, TORCH_CHECK,
    bind, ret, raise, CUSPARSE_STATUS_SUCCESS; cbn.
  status_cases (respond dev (calls s) CusparseLtMatmulGetWorkspace).
Qed.

End Rules.

(** One step of a run. *)
Ltac wp_step :=
  cbv beta iota zeta;
  lazymatch goal with
  | |- wp (bind _ _) _ _ => apply wp_bind
  | |- wp (ret _) _ _ => apply wp_ret
  | |- wp get_this _ _ => apply wp_get_this
  | |- wp (modify_this _) _ _ => apply wp_modify_this
  | |- wp (mark _) _ _ => apply wp_mark
  | |- wp (size _ _) _ _ => apply wp_size
  | |- wp (capability_gate _ _) _ _ => apply wp_capability_gate; intros ?
  | |- wp (new_half_array _ _) _ _ => apply wp_new_half_array; intros ?
  | |- wp (data_ptr_as _ _) _ _ => apply wp_data_ptr_as; intros ?
  | |- wp (CHECK_CUSPARSE _ (call_ _ _)) _ _ =>
      apply wp_CHECK_CUSPARSE_call; intros ?
  | |- wp (CHECK_CUDA _ (cudaMemcpy _ _ _ _ _)) _ _ =>
      apply wp_CHECK_CUDA_cudaMemcpy; intros ?
  | |- wp (CHECK_CUDA _ (cudaDeviceGetAttribute _ _ _ _)) _ _ =>
      apply wp_CHECK_CUDA_cudaDeviceGetAttribute; intros ?
  | |- wp (CHECK_CUDA _ (cudaMalloc _ _ _)) _ _ =>
      apply wp_CHECK_CUDA_cudaMalloc; intros ?
  | |- wp (CHECK_CUDA _ (cudaMalloc_member _ _ _ _)) _ _ =>
      apply wp_CHECK_CUDA_cudaMalloc_member; intros ?
  | |- wp (CHECK_CUSPARSE _ (cusparseLtMatmulGetWorkspace _ _)) _ _ =>
      apply wp_CHECK_CUSPARSE_cusparseLtMatmulGetWorkspace; intros ?
  | |- match nth_error (sizes ?t) ?d with _ => _ end =>
      let E := fresh "E" in destruct (nth_error (sizes t) d) eqn:E
  end.

(** Settle a test on an element type as soon as it appears. *)
Ltac settle_types :=
  repeat match goal with
         | E : ScalarType_eqb (dtype _) _ = _, H : dtype _ = _ |- _ =>
             cbn in E; rewrite H in E; cbn in E;
             first [ discriminate E | clear E ]
         end.

(** Settle a lookup of a size as soon as it appears, from a hypothesis
    that gives the sizes. *)
Ltac settle_lookups :=
  repeat match goal with
         | E : nth_error (sizes _) _ = _, H : sizes _ = _ |- _ =>
             cbn in E; rewrite H in E; cbn in E;
             first [ discriminate E | injection E as E; subst ]
         end.

(** Put a goal about [fst (c s)] and [snd (c s)] in [wp] form. *)
Ltac by_wp c s :=
  pattern (fst (c s)), (snd (c s)); apply wp_run.


(* ------------------------------------------------------------------ *)
(** ** Facts shared by several results *)

(** [init] issues no [cudaFree], and the set of live device allocations
    only grows while it runs. *)
Lemma init_never_frees (dev : Device) (gpu_index : Z)
    (activation res bias : Tensor) (s : State) :
  exists seg,
    calls (snd (init dev gpu_index activation res bias s)) = seg ++ calls s /\
    forallb (fun c => negb (is_free c)) seg = true /\
    incl (live s) (live (snd (init dev gpu_index activation res bias s))).
Proof.
  by_wp (init dev gpu_index activation res bias) s. unfold init.
  repeat wp_step;
    (eexists; split; [cbn; segment | split; [reflexivity|]]);
    cbn; auto using incl_refl, incl_tl.
Qed.

Lemma capability_checked_first_sound (chron : list Call) :
  capability_checked_first chron = true ->
  forall pre c post,
    chron = pre ++ c :: post ->
    allocates_or_describes c = true ->
    exists major_cc minor_cc, In (CapabilityChecked major_cc minor_cc) pre.
Proof.
  induction chron as [|x rest IH]; intros Hchk pre c post Heq Hc.
  - destruct pre; discriminate.
  - destruct pre as [|y pre']; cbn in Heq; injection Heq as -> Hrest.
    + cbn in Hchk. destruct c; cbn in Hc; try discriminate; cbn in Hchk;
        discriminate.
    + cbn in Hchk. destruct (is_capability_check y) eqn:Hy.
      * destruct y; try discriminate. eexists _, _. left. reflexivity.
      * apply andb_true_iff in Hchk as [_ Hchk].
        destruct (IH Hchk pre' c post Hrest Hc) as (major_cc & minor_cc & Hin).
        exists major_cc, minor_cc. right. exact Hin.
Qed.

Lemma on_device_0_sound (seg : list Call) :
  forallb on_device_0 seg = true ->
  forall attr device, In (CudaDeviceGetAttribute attr device) seg -> device = 0.
Proof.
  intros H attr device Hin.
  rewrite forallb_forall in H. apply H in Hin. cbn in Hin. lia.
Qed.

Lemma mul_i64_exact (a b : Z) : in_i64 (a * b) -> mul_i64 a b = a * b.
Proof.
  unfold in_i64, mul_i64, wrap_i64. intros H.
  rewrite Z.mod_small by lia. lia.
Qed.

(* ------------------------------------------------------------------ *)
(** ** The capability gate *)

(** C1.  The design document has the gate accept exactly the pairs 8.0 and
    8.6.  The condition handed to TORCH_CHECK on lines 73-74 is "neither
    8.0 nor 8.6", so the gate throws exactly on the two allowlisted pairs,
    with the message naming them, and lets every other pair through. *)
Theorem capability_gate_throws_on_the_allowlist :
  forall (major_cc minor_cc : Z) (s : State),
    (capability_gate major_cc minor_cc s
       = (Err (CapabilityNotSupported (capability_message major_cc minor_cc)), s)
     <-> (major_cc = 8 /\ minor_cc = 0) \/ (major_cc = 8 /\ minor_cc = 6)) /\
    (capability_gate major_cc minor_cc s = (Ok tt, s)
     <-> ~ ((major_cc = 8 /\ minor_cc = 0) \/ (major_cc = 8 /\ minor_cc = 6))).
Proof.
  intros major_cc minor_cc s.
  rewrite <- allowlisted_spec.
  unfold capability_gate, TORCH_CHECK, ret, raise.
  rewrite capability_gate_condition.
  destruct (allowlisted major_cc minor_cc); cbn;
    split; split; intro H; try reflexivity; try discriminate; congruence.
Qed.

(** The gate at 8.0 and at 7.5, and [init] on a healthy 8.0 device: the
    first capability query succeeds and CHECK_CUDA throws on it. *)
Example capability_gate_8_0 :
  fst (capability_gate 8 0 (boot construct_default))
  = Err (CapabilityNotSupported
      "cusparseLt is supported only on GPU devices with compute capability == 8.0, 8.6 current: 8.0").
Proof. reflexivity. Qed.

Example capability_gate_7_5 :
  fst (capability_gate 7 5 (boot construct_default)) = Ok tt.
Proof. reflexivity. Qed.

Example init_on_a_healthy_8_0_device :
  fst (init (healthy 8 0 0) 0 activation_3x4 output_2x3 bias_2
         (boot (construct weight_2x4 1)))
  = Err (CudaApiFailed 69 0).
Proof. reflexivity. Qed.


(* ------------------------------------------------------------------ *)
(** ** The error-check macros *)

(** C2.  The design document has the wrappers throw exactly when the
    wrapped call returns a non-success status.  The macros of lines 13-30
    hand [status != success] to TORCH_CHECK as the condition that must
    hold, so they throw exactly when the call succeeded: at status 0 both
    throw, and at any other status neither does. *)
Theorem CHECK_macros_throw_on_success :
  forall (line status : Z) (s : State),
    CHECK_CUDA line (ret (cudaSuccess, tt)) s
      = (Err (CudaApiFailed line cudaSuccess), s) /\
    CHECK_CUSPARSE line (ret (CUSPARSE_STATUS_SUCCESS, tt)) s
      = (Err (CusparseApiFailed line CUSPARSE_STATUS_SUCCESS), s) /\
    (raises (fst (CHECK_CUDA line (ret (status, tt)) s)) = true
       <-> status = cudaSuccess) /\
    (raises (fst (CHECK_CUSPARSE line (ret (status, tt)) s)) = true
       <-> status = CUSPARSE_STATUS_SUCCESS).
Proof.
  intros line status s.
  split; [reflexivity|]. split; [reflexivity|].
  unfold CHECK_CUDA, CHECK_CUSPARSE, TORCH_CHECK, bind, ret, raise,
    cudaSuccess, CUSPARSE_STATUS_SUCCESS; cbn.
  destruct (Z.eqb_spec status 0) as [->|Hne]; cbn;
    split; split; intro H; try reflexivity; try discriminate; congruence.
Qed.


(* ------------------------------------------------------------------ *)
(** ** init: shapes *)

(** C3 fails on the code.  With a 2 x 4 weight and a 3 x 5 activation
    (neither dimension of the activation is 4), [init] completes on a
    device whose calls all fail, having issued its allocation calls; and
    on a device where the first [cudaMalloc] succeeds it allocates and
    then throws the CUDA error of line 125.  In neither run is there a
    shape error. *)
Lemma init_accepts_a_mismatched_activation :
  nth_error (sizes activation_3x5) 0 <> nth_error (sizes weight_2x4) 1 /\
  nth_error (sizes activation_3x5) 1 <> nth_error (sizes weight_2x4) 1 /\
  fst mismatched_init = Ok tt /\
  In (CudaMalloc 16) (calls (snd mismatched_init)) /\
  fst mismatched_init_allocating = Err (CudaApiFailed 125 0) /\
  kind_of (CudaApiFailed 125 0) = Some DeviceError /\
  live (snd mismatched_init_allocating) = [1].
Proof.
  split; [discriminate|]. split; [discriminate|].
  split; [reflexivity|]. split; [vm_compute; tauto|].
  repeat split; reflexivity.
Qed.

(** C3, as the code has it.  [init] never compares the activation with
    the weight.  Of the activation it reads the first size (its [n]), the
    element type and the data pointer: two activations that agree on these
    give the same run whatever their other sizes are.  And nothing relates
    [n], or any other size of the activation, to the weight's [k]: on a
    device that answers every call with an error and whose capability
    read is not on the allowlist (the devices on which [init] can complete
    at all), with tensors of the element types the accessors ask for and a
    host array that fits and finds room, [init] completes for every weight
    [m x k] and every activation with a first size, and it has issued the
    [cudaMalloc] of its activation buffer. *)
Theorem init_never_compares_shapes :
  forall (dev : Device) (gpu_index : Z) (res bias : Tensor) (s : State),
    (forall (n : Z) (rest rest' : list Z) (T : ScalarType) (p : Ptr),
       init dev gpu_index {| sizes := n :: rest; dtype := T; data_ptr := p |}
            res bias s
       = init dev gpu_index {| sizes := n :: rest'; dtype := T; data_ptr := p |}
              res bias s) /\
    (forall (activation : Tensor) (m k n : Z) (rest_w rest_a : list Z),
       (forall h c, respond dev h c <> 0) ->
       allowlisted (stale_major_cc dev) (stale_minor_cc dev) = false ->
       sizes (weight (this s)) = m :: k :: rest_w ->
       sizes activation = n :: rest_a ->
       dtype (weight (this s)) = Half -> dtype activation = Half ->
       dtype res = Half -> dtype bias = Float ->
       0 <= C_size (layout order (this s) m k n) <= max_half_array_length ->
       host_has_room dev (C_size (layout order (this s) m k n)) = true ->
       fst (init dev gpu_index activation res bias s) = Ok tt /\
       In (CudaMalloc (B_size_bytes (layout order (this s) m k n)))
          (calls (snd (init dev gpu_index activation res bias s)))).
Proof.
  intros dev gpu_index res bias s. split; [reflexivity|].
  intros activation m k n rest_w rest_a Hdev Hgate Hw Ha Tw Ta Tr Tb HC Hroom.
  by_wp (init dev gpu_index activation res bias) s. unfold init.
  repeat (wp_step; settle_lookups; settle_types;
          try (exfalso; eapply Hdev; eassumption);
          try congruence;
          try match goal with
              | H : C_size _ < 0 \/ _ < C_size _ |- _ =>
                  exfalso; cbn in H; lia
              | H : _ /\ host_has_room _ _ = false |- _ =>
                  exfalso; cbn in H; destruct H as [_ H]; congruence
              end).
  split; [reflexivity|]. cbn. do 24 right. left. reflexivity.
Qed.

(** The theorem at the 2 x 4 weight and the 3 x 5 activation. *)
Lemma init_never_compares_shapes_witness :
  nth_error (sizes activation_3x5) 0 <> nth_error (sizes weight_2x4) 1 /\
  nth_error (sizes activation_3x5) 1 <> nth_error (sizes weight_2x4) 1 /\
  fst mismatched_init = Ok tt /\
  In (CudaMalloc 24) (calls (snd mismatched_init)).
Proof.
  split; [discriminate|]. split; [discriminate|].
  apply (proj2 (init_never_compares_shapes
                  (failing 0 0 0) 0 output_2x3 bias_2 fresh_session)
               activation_3x5 2 4 3 [] [5]).
  - intros h c. discriminate.
  - reflexivity.
  - reflexivity.
  - reflexivity.
  - reflexivity.
  - reflexivity.
  - reflexivity.
  - reflexivity.
  - vm_compute. split; discriminate.
  - reflexivity.
Defined.

(* ------------------------------------------------------------------ *)
(** ** init: dimensions, leading dimensions and batch strides *)





(* ------------------------------------------------------------------ *)
(** ** masked_mm *)

(** C5 fails on the code.  After a completed [init] with the output tensor
    at device address 900, [masked_mm] hands [cusparseLtMatmul] the member
    [dC] as prior-output operand and the member [dD], the output tensor's
    storage, as destination: two different values. *)
Lemma masked_mm_passes_two_buffers :
  fst completed_init = Ok tt /\
  hd_error (calls session_after_masked_mm)
  = Some (CusparseLtMatmul float_1_0 Indeterminate Indeterminate float_0_0
            (dC (this session_after_init)) (dD (this session_after_init))
            nullptr nullptr 0) /\
  dD (this session_after_init) = data_ptr output_2x3 /\
  dC (this session_after_init) <> dD (this session_after_init).
Proof.
  split; [reflexivity|]. split; [reflexivity|]. split; [reflexivity|].
  vm_compute. discriminate.
Qed.

(** C5, as the code has it.  [masked_mm] issues one call, the matmul with
    scale factors 1 and 0, a null workspace, no streams, the compressed
    weight and the activation buffer, the member [dC] as prior-output
    operand and the member [dD] as destination, and it changes nothing in
    the session.  [init] is where the two members come from: it leaves
    [dD] at the output tensor's storage when it completes (and otherwise
    either there or untouched), while [dC] is either untouched or the
    block its own [cudaMalloc] of line 127 returned. *)
Theorem masked_mm_operands :
  forall (dev : Device) (s : State),
    calls (snd (masked_mm dev s))
    = CusparseLtMatmul float_1_0 (dA_compressed (this s)) (dB (this s))
        float_0_0 (dC (this s)) (dD (this s)) nullptr nullptr 0
      :: calls s /\
    this (snd (masked_mm dev s)) = this s /\
    forall (gpu_index : Z) (activation res bias : Tensor),
      let s' := snd (init dev gpu_index activation res bias s) in
      (dC (this s') = dC (this s) \/ dC (this s') = Dev (next_dev s)) /\
      (dD (this s') = dD (this s) \/ dD (this s') = data_ptr res) /\
      match fst (init dev gpu_index activation res bias s) with
      | Ok _ => dD (this s') = data_ptr res
      | Err _ => True
      end.
Proof.
  intros dev s.
  split; [run; reflexivity|]. split; [run; reflexivity|].
  intros gpu_index activation res bias s'. subst s'.
  by_wp (init dev gpu_index activation res bias) s. unfold init.
  repeat wp_step; cbn; auto.
Qed.

(* ------------------------------------------------------------------ *)
(** ** Teardown *)

(** C6 fails on the code.  On a device where the first [cudaMalloc] of
    [init] succeeds (16 bytes for the 2 x 4 half-precision weight), [init]
    stores the block in [dA] and throws on line 125; destroying the session
    afterwards leaves the block allocated. *)
Lemma teardown_after_init_leaks :
  fst init_allocating_dA = Err (CudaApiFailed 125 0) /\
  dA (this (snd init_allocating_dA)) = Dev 1 /\
  live (snd init_allocating_dA) = [1] /\
  allocated (destroy (snd init_allocating_dA)) = [1].
Proof. repeat split; reflexivity. Qed.

(** C6, as the code has it.  The struct has no destructor, and the file
    has no call that destroys a handle, a descriptor or a plan.  Destroying
    the session issues no call and releases no device allocation: after a
    run of [init] and the destruction of the session, every block that was
    live before or that [init] allocated is still allocated, and the only
    [cudaFree] calls on record are those issued before [init]. *)
Theorem teardown_releases_nothing :
  forall (dev : Device) (gpu_index : Z) (activation res bias : Tensor) (s : State),
    let s' := snd (init dev gpu_index activation res bias s) in
    issued (destroy s') = calls s' /\
    allocated (destroy s') = live s' /\
    incl (live s) (allocated (destroy s')) /\
    (forall c, In c (issued (destroy s')) -> is_free c = true -> In c (calls s)).
Proof.
  intros dev gpu_index activation res bias s s'.
  destruct (init_never_frees dev gpu_index activation res bias s)
    as (seg & Hseg & Hfree & Hlive).
  fold s' in Hseg, Hlive.
  split; [reflexivity|]. split; [reflexivity|]. split; [exact Hlive|].
  intros c Hin Hc. unfold destroy in Hin; cbn in Hin.
  rewrite Hseg in Hin. apply in_app_or in Hin as [Hin|Hin]; [|exact Hin].
  rewrite forallb_forall in Hfree. apply Hfree in Hin.
  rewrite Hc in Hin. discriminate.
Qed.

(* ------------------------------------------------------------------ *)
(** ** prune *)

(** C7.  The design document has prune fail with the pruning error exactly
    when the copied-back flag is nonzero, and complete when it is zero.
    The last TORCH_CHECK (line 223) is written that way, but the five
    wrapped calls before it go through the macros that throw on success:
    the copy-back can only be passed by failing, which leaves [h_is_valid]
    at its initial 0.  So no run of prune ever ends in the pruning error;
    on a healthy device, whatever the flag, prune throws at its first call
    (line 212); and on a device whose calls all fail it completes,
    whatever the flag. *)
Theorem prune_never_reports_a_wrong_pruning :
  (forall (dev : Device) (s : State),
     fst (prune dev s) <> Err PrunedInAWrongWay) /\
  (forall (major minor flag : Z) (s : State),
     fst (prune (healthy major minor flag) s) = Err (CusparseApiFailed 212 0)) /\
  (forall (major minor flag : Z) (s : State),
     fst (prune (failing major minor flag) s) = Ok tt).
Proof.
  split; [|split].
  - intros dev s. run; congruence.
  - reflexivity.
  - reflexivity.
Qed.

(* ------------------------------------------------------------------ *)
(** ** init: what comes first *)

(** C8.  Whatever the device answers and whatever the inputs, in the calls
    one run of [init] issues, every device or host allocation and every
    descriptor initialisation is preceded by the capability check. *)
Theorem init_checks_capability_before_resources :
  forall (dev : Device) (gpu_index : Z) (activation res bias : Tensor) (s : State),
  exists seg,
    calls (snd (init dev gpu_index activation res bias s)) = seg ++ calls s /\
    forall pre c post,
      rev seg = pre ++ c :: post ->
      allocates_or_describes c = true ->
      exists major_cc minor_cc, In (CapabilityChecked major_cc minor_cc) pre.
Proof.
  intros dev gpu_index activation res bias s.
  by_wp (init dev gpu_index activation res bias) s. unfold init.
  repeat wp_step;
    (eexists; split;
     [cbn; segment | apply capability_checked_first_sound; reflexivity]).
Qed.

(* ------------------------------------------------------------------ *)
(** ** The validity-flag buffers *)

(** C9 fails on the code.  On a device where the [cudaMalloc] of
    [d_valid] (line 128) is the first to succeed, [init] leaves the block
    in [d_valid] and throws; a run of [prune] afterwards completes and the
    block is still live.  And on a device where [prune]'s own
    [cudaMalloc] succeeds, [prune] throws on line 216 and the scratch block
    stays live. *)
Lemma validity_flag_buffers_outlive_prune :
  fst init_allocating_d_valid = Err (CudaApiFailed 128 0) /\
  d_valid (this (snd init_allocating_d_valid)) = Dev 1 /\
  fst prune_after_d_valid = Ok tt /\
  live (snd prune_after_d_valid) = [1] /\
  fst prune_allocating_is_valid = Err (CudaApiFailed 216 0) /\
  live (snd prune_allocating_is_valid) = [1].
Proof. repeat split; reflexivity. Qed.

(** C9, as the code has it.  Whenever prune gets to its verdict, the last
    three calls it issued are the validity check on a flag pointer, the
    copy-back from that pointer and the [cudaFree] of that pointer: the
    free comes before the verdict and does not depend on it.  The session
    member [d_valid], which [init] allocates on line 128, is another
    matter: prune, compress and masked_mm neither read nor write it (their
    runs are the same whatever it holds), every block that is live when
    prune starts is live when it ends, and [init] issues no [cudaFree] at
    all and never shrinks the set of live allocations. *)
Theorem prune_frees_its_scratch_flag_before_the_verdict :
  forall (dev : Device) (s : State),
    (reached_verdict (fst (prune dev s)) = true ->
     exists p,
       calls (snd (prune dev s))
       = CudaFree p
           :: CudaMemcpy (Stack "h_is_valid") p sizeof_int cudaMemcpyDeviceToHost
           :: CusparseLtSpMMAPruneCheck2
                (op_weight (this s)) (dA (this s)) p (stream (this s))
           :: CudaMalloc sizeof_int
           :: CusparseLtSpMMAPrune2
                (op_weight (this s)) (dA (this s)) (dA (this s)) (stream (this s))
           :: calls s) /\
    (forall p : Ptr,
       prune dev (with_this (set_d_valid p) s)
       = (fst (prune dev s), with_this (set_d_valid p) (snd (prune dev s))) /\
       compress dev (with_this (set_d_valid p) s)
       = (fst (compress dev s), with_this (set_d_valid p) (snd (compress dev s))) /\
       masked_mm dev (with_this (set_d_valid p) s)
       = (fst (masked_mm dev s), with_this (set_d_valid p) (snd (masked_mm dev s)))) /\
    incl (live s) (live (snd (prune dev s))) /\
    (forall (gpu_index : Z) (activation res bias : Tensor),
       exists seg,
         calls (snd (init dev gpu_index activation res bias s)) = seg ++ calls s /\
         forallb (fun c => negb (is_free c)) seg = true /\
         incl (live s) (live (snd (init dev gpu_index activation res bias s)))).
Proof.
  intros dev s. split; [|split; [|split]].
  - run; intro H; try discriminate; eexists; reflexivity.
  - intro p. split; [|split]; run; reflexivity.
  - run; auto using incl_refl, incl_tl.
  - intros gpu_index activation res bias. apply init_never_frees.
Qed.

Lemma prune_frees_its_scratch_flag_before_the_verdict_witness :
  reached_verdict (fst (prune (failing 0 0 1) fresh_session)) = true /\
  exists p,
    calls (snd (prune (failing 0 0 1) fresh_session))
    = [ CudaFree p;
        CudaMemcpy (Stack "h_is_valid") p sizeof_int cudaMemcpyDeviceToHost;
        CusparseLtSpMMAPruneCheck2
          CUSPARSE_OPERATION_NON_TRANSPOSE Indeterminate p nullptr;
        CudaMalloc sizeof_int;
        CusparseLtSpMMAPrune2
          CUSPARSE_OPERATION_NON_TRANSPOSE Indeterminate Indeterminate nullptr ].
Proof.
  split; [reflexivity|].
  exact (proj1 (prune_frees_its_scratch_flag_before_the_verdict
                  (failing 0 0 1) fresh_session)
               eq_refl).
Defined.

(* ------------------------------------------------------------------ *)
(** ** init: the device index *)

(** C10.  [init] never reads [gpu_index]: two runs that differ only in it
    are the same run.  Every capability query of a run names device 0, and
    the first call of every run is the query of the major capability of
    device 0. *)
Theorem init_ignores_gpu_index :
  forall (dev : Device) (gpu_index gpu_index' : Z)
         (activation res bias : Tensor) (s : State),
    init dev gpu_index activation res bias s
    = init dev gpu_index' activation res bias s /\
    exists seg,
      calls (snd (init dev gpu_index activation res bias s)) = seg ++ calls s /\
      (forall attr device,
         In (CudaDeviceGetAttribute attr device) seg -> device = 0) /\
      exists later,
        seg = later ++ [CudaDeviceGetAttribute cudaDevAttrComputeCapabilityMajor 0].
Proof.
  intros dev gpu_index gpu_index' activation res bias s.
  split; [reflexivity|].
  by_wp (init dev gpu_index activation res bias) s. unfold init.
  repeat wp_step;
    (eexists; split; [cbn; segment | split;
       [apply on_device_0_sound; reflexivity
       | match goal with
         | |- exists later, ?seg = _ => exists (removelast seg); reflexivity
         end]]).
Qed.


(* ================================================================== *)
(** * Further properties of the four methods *)

(** Put the status of a thrown error in its known form. *)
Ltac zero_status :=
  repeat match goal with
         | E : (?x =? 0) = true |- _ => apply Z.eqb_eq in E; rewrite ?E
         end;
  cbn.

(** Settle a lookup of a size as soon as it appears. *)
Ltac settle_sizes :=
  repeat match goal with
         | E : nth_error (sizes _) _ = _, H : sizes _ = _ |- _ =>
             cbn in E; rewrite H in E; cbn in E;
             first [ discriminate E | injection E as E; subst ]
         end.

(** What is left to show when [init] stops before its first allocation. *)
Ltac stopped_early :=
  lazymatch goal with
  | |- _ <> _ /\ _ =>
      split; [discriminate|]; split; [reflexivity|]; split; [reflexivity|];
      eexists; split; [cbn; segment | reflexivity]
  end.

(* ------------------------------------------------------------------ *)
(** ** When init completes *)

(** X1.  A run of [init] that completes has had every one of its 28 CUDA
    and cusparseLt calls answered with an error, has read a capability
    that is not on the allowlist, a weight with at least two sizes and an
    activation with at least one, and a non-negative element count for the
    host array. *)
Theorem init_completes_only_if_every_call_failed :
  forall (dev : Device) (gpu_index : Z) (activation res bias : Tensor) (s : State),
    fst (init dev gpu_index activation res bias s) = Ok tt ->
    allowlisted (stale_major_cc dev) (stale_minor_cc dev) = false /\
    (exists m k n rest_w rest_a,
       sizes (weight (this s)) = m :: k :: rest_w /\
       sizes activation = n :: rest_a /\
       0 <= C_size (layout order (this s) m k n)) /\
    exists seg,
      calls (snd (init dev gpu_index activation res bias s)) = seg ++ calls s /\
      List.length (filter answered seg) = 28%nat /\
      every_call_failed dev seg (calls s).
Proof.
  intros dev gpu_index activation res bias s.
  by_wp (init dev gpu_index activation res bias) s. unfold init.
  repeat wp_step; try (intro; discriminate).
  intros _. split; [assumption|]. cbn in *. split.
  - destruct (sizes (weight (this s))) as [|m [|k rest_w]]; try discriminate.
    destruct (sizes activation) as [|n rest_a]; try discriminate.
    cbn in *.
    repeat match goal with
           | H : Some _ = Some _ |- _ => injection H as H; subst
           end.
    eexists _, _, _, _, _. split; [reflexivity|]. split; [reflexivity|].
    match goal with
    | H : 0 <= _ <= _ /\ _ |- _ => destruct H as [[H _] _]; exact H
    end.
  - eexists. split; [segment|]. split; [reflexivity|].
    cbn. repeat split; intros Hans; try discriminate Hans; assumption.
Qed.

Lemma init_completes_only_if_every_call_failed_witness :
  fst completed_init = Ok tt /\
  allowlisted (stale_major_cc (failing 0 0 0)) (stale_minor_cc (failing 0 0 0)) = false.
Proof.
  split; [reflexivity|].
  exact (proj1 (init_completes_only_if_every_call_failed
                  (failing 0 0 0) 0 activation_3x4 output_2x3 bias_2
                  fresh_session eq_refl)).
Defined.

(** X3.  Whatever method is called and whatever the device answers, an
    error thrown by CHECK_CUDA or CHECK_CUSPARSE reports status 0: the
    macros only throw on a call that succeeded. *)
Theorem wrapper_errors_report_status_0 :
  forall (dev : Device) (f : Method) (s : State),
    reports_status_0 (fst (invoke dev f s)).
Proof.
  intros dev f s.
  destruct f as [gpu_index activation res bias| | |]; unfold invoke.
  - by_wp (init dev gpu_index activation res bias) s. unfold init.
    repeat wp_step; exact I || reflexivity.
  - run; exact I || (apply Z.eqb_eq; assumption).
  - run; exact I || (apply Z.eqb_eq; assumption).
  - run; exact I || (apply Z.eqb_eq; assumption).
Qed.

(* ------------------------------------------------------------------ *)
(** ** What a call does to the session and to the device's blocks *)

(** X4.  A run of [init] allocates at most one device block.  When it
    completes it has allocated none, and the only member it has changed is
    [dD], now the output tensor's storage; a block is only ever left
    behind by a run that ends in a CUDA error. *)
Theorem init_allocates_at_most_one_block :
  forall (dev : Device) (gpu_index : Z) (activation res bias : Tensor) (s : State),
    let r := init dev gpu_index activation res bias s in
    match fst r with
    | Ok _ =>
        live (snd r) = live s /\ next_dev (snd r) = next_dev s /\
        this (snd r) = set_dD (data_ptr res) (this s)
    | Err (CudaApiFailed _ _) =>
        (live (snd r) = live s /\ next_dev (snd r) = next_dev s) \/
        (live (snd r) = next_dev s :: live s /\
         next_dev (snd r) = next_dev s + 1)
    | Err _ => live (snd r) = live s /\ next_dev (snd r) = next_dev s
    end.
Proof.
  intros dev gpu_index activation res bias s r. subst r.
  by_wp (init dev gpu_index activation res bias) s. unfold init.
  repeat wp_step; cbn; auto.
Qed.

(** X5.  No method changes the weight, the stream, the batch count or the
    two operations.  [prune] and [masked_mm] change nothing at all in the
    session, [compress] at most [dA_compressed], and [init] never
    [dA_compressed]. *)
Theorem methods_keep_the_configuration :
  forall (dev : Device) (f : Method) (s : State),
    let o := this s in
    let o' := this (snd (invoke dev f s)) in
    weight o' = weight o /\ stream o' = stream o /\
    num_batches o' = num_batches o /\
    op_weight o' = op_weight o /\ op_activation o' = op_activation o /\
    match f with
    | def_init _ _ _ _ => dA_compressed o' = dA_compressed o
    | def_compress =>
        dA o' = dA o /\ dB o' = dB o /\ dC o' = dC o /\ dD o' = dD o /\
        d_valid o' = d_valid o
    | def_prune => o' = o
    | def_masked_mm => o' = o
    end.
Proof.
  intros dev f s o o'. subst o o'.
  destruct f as [gpu_index activation res bias| | |]; unfold invoke.
  - by_wp (init dev gpu_index activation res bias) s. unfold init.
    repeat wp_step; cbn; auto 10.
  - run; auto 10.
  - run; auto 10.
  - run; auto 10.
Qed.

(** Every call either leaves the blocks alone or adds the next fresh one,
    stored in at most one member; and it keeps the operations and the
    stream. *)
Lemma invoke_block_effect (dev : Device) (f : Method) (s : State) :
  block_effect s (snd (invoke dev f s)).
Proof.
  destruct f as [gpu_index activation res bias| | |]; unfold invoke.
  - by_wp (init dev gpu_index activation res bias) s. unfold init.
    repeat wp_step;
      first [ apply no_block; reflexivity
            | apply (new_block _ _ 0%nat); reflexivity
            | apply (new_block _ _ 1%nat); reflexivity
            | apply (new_block _ _ 2%nat); reflexivity
            | apply (new_block _ _ 3%nat); reflexivity
            | apply (new_block _ _ 5%nat); reflexivity ].
  - run; first [ apply no_block; reflexivity
               | apply (new_block _ _ 5%nat); reflexivity ].
  - run; first [ apply no_block; reflexivity
               | apply (new_block _ _ 4%nat); reflexivity ].
  - run; apply no_block; reflexivity.
Qed.

Lemma invoke_keeps_flags (dev : Device) (f : Method) (s : State) :
  op_weight (this (snd (invoke dev f s))) = op_weight (this s) /\
  op_activation (this (snd (invoke dev f s))) = op_activation (this s) /\
  stream (this (snd (invoke dev f s))) = stream (this s).
Proof.
  destruct f as [gpu_index activation res bias| | |]; unfold invoke.
  - by_wp (init dev gpu_index activation res bias) s. unfold init.
    repeat wp_step; cbn; auto.
  - run; auto.
  - run; auto.
  - run; auto.
Qed.

Section Fresh.

Variables (s s' : State).
Hypothesis Hbound : forall a, In a (live s) -> a < next_dev s.
Hypothesis Hlive : live s' = next_dev s :: live s.

Lemma owned_later (p : Ptr) : owned s p -> owned s' p.
Proof.
  unfold owned. rewrite Hlive.
  intros [H|(a & H1 & H2)];
    [left; exact H | right; exists a; split; [exact H1 | right; exact H2]].
Qed.

Lemma owned_fresh : owned s' (Dev (next_dev s)).
Proof.
  unfold owned. rewrite Hlive. right. exists (next_dev s).
  split; [reflexivity | left; reflexivity].
Qed.

Lemma apart_fresh_l (q : Ptr) : owned s q -> apart (Dev (next_dev s)) q.
Proof.
  intros [->|(b & -> & Hb)] a b' Ha Hq; [discriminate|].
  injection Ha as <-. injection Hq as <-. apply Hbound in Hb. lia.
Qed.

Lemma apart_fresh_r (p : Ptr) : owned s p -> apart p (Dev (next_dev s)).
Proof.
  intros [->|(b & -> & Hb)] a b' Ha Hq; [discriminate|].
  injection Ha as <-. injection Hq as <-. apply Hbound in Hb. lia.
Qed.

Lemma store_owned (i : nat) (l : list Ptr) :
  Forall (owned s) l -> Forall (owned s') (store i (Dev (next_dev s)) l).
Proof.
  intros H. revert i. induction H as [|q rest Hq Hrest IH]; intros i.
  - destruct i; constructor.
  - destruct i as [|i']; cbn; constructor.
    + exact owned_fresh.
    + eapply Forall_impl; [|exact Hrest]. exact owned_later.
    + apply owned_later; exact Hq.
    + apply IH.
Qed.

Lemma store_apart_from (p : Ptr) (i : nat) (l : list Ptr) :
  owned s p -> Forall (apart p) l ->
  Forall (apart p) (store i (Dev (next_dev s)) l).
Proof.
  intros Hp H. revert i. induction H as [|q rest Hq Hrest IH]; intros i.
  - destruct i; constructor.
  - destruct i as [|i']; cbn; constructor; auto.
    apply apart_fresh_r; exact Hp.
Qed.

Lemma store_apart (i : nat) (l : list Ptr) :
  Forall (owned s) l -> ForallOrdPairs apart l ->
  ForallOrdPairs apart (store i (Dev (next_dev s)) l).
Proof.
  intros Ho H. revert i. induction H as [|q rest Hq Hrest IH]; intros i.
  - destruct i; constructor.
  - inversion Ho as [|? ? Hoq Horest]; subst.
    destruct i as [|i']; cbn; constructor.
    + eapply Forall_impl; [|exact Horest].
      intros x Hx. apply apart_fresh_l; exact Hx.
    + exact Hrest.
    + apply store_apart_from; assumption.
    + apply IH; assumption.
Qed.

End Fresh.

Lemma invoke_keeps (dev : Device) (f : Method) (s : State) :
  well_kept s -> well_kept (snd (invoke dev f s)).
Proof.
  intros (Hbound & Hnodup & Howned & Hapart & Hopw & Hopa & Hstream).
  destruct (invoke_keeps_flags dev f s) as (Fw & Fa & Fs).
  unfold well_kept. rewrite Fw, Fa, Fs.
  destruct (invoke_block_effect dev f s) as [Hl Hn Hm | i Hl Hn Hm].
  - rewrite Hl, Hn, Hm. repeat split; try assumption.
    eapply Forall_impl; [|exact Howned].
    intros p. unfold owned. rewrite Hl. exact (fun H => H).
  - rewrite Hl, Hn, Hm. repeat split; try assumption.
    + intros a [<-|Ha]; [lia | apply Hbound in Ha; lia].
    + constructor; [|exact Hnodup]. intro Hin. apply Hbound in Hin. lia.
    + apply store_owned; assumption.
    + apply store_apart; assumption.
Qed.

Lemma reachable_well_kept (s : State) : reachable s -> well_kept s.
Proof.
  intros H. induction H as [w nb | dev f s H IH].
  - unfold well_kept, boot, construct, member_blocks, owned; cbn.
    repeat split; try (intros a []); try constructor;
      repeat constructor; auto; intros a b Ha; discriminate.
  - apply invoke_keeps; exact IH.
Qed.

(** X6.  In every session state that the constructors and any sequence of
    method calls can produce, the live blocks are distinct addresses below
    the next fresh one, each of the members [dA], [dB], [dC], [d_valid] and
    [dA_compressed] is either still unassigned or holds a live block (no
    member points to a released block), and no two of them hold the same
    block. *)
Theorem reachable_sessions_own_their_blocks :
  forall s : State,
    reachable s ->
    (forall a, In a (live s) -> a < next_dev s) /\
    NoDup (live s) /\
    Forall (owned s) (member_blocks (this s)) /\
    ForallOrdPairs apart (member_blocks (this s)).
Proof.
  intros s H.
  destruct (reachable_well_kept s H) as (H1 & H2 & H3 & H4 & _).
  repeat split; assumption.
Qed.

Lemma session_after_two_calls_reachable : reachable session_after_two_calls.
Proof. unfold session_after_two_calls. repeat constructor. Defined.

Lemma reachable_sessions_own_their_blocks_witness :
  reachable session_after_two_calls /\
  live session_after_two_calls = [2; 1] /\
  NoDup (live session_after_two_calls).
Proof.
  split; [exact session_after_two_calls_reachable|].
  split; [reflexivity|].
  exact (proj1 (proj2 (reachable_sessions_own_their_blocks
                         session_after_two_calls
                         session_after_two_calls_reachable))).
Defined.

(** X7.  In every such state both operations are still
    [CUSPARSE_OPERATION_NON_TRANSPOSE] and the stream is still null, so the
    layout [init] computes is never one of the transposed ones: the weight
    is described as [m x k] with leading dimension [k], the activation as
    [k x n] and the output as [m x n], both with leading dimension [n]. *)
Theorem reachable_sessions_are_never_transposed :
  forall (s : State) (m k n : Z),
    reachable s ->
    let L := layout order (this s) m k n in
    op_weight (this s) = CUSPARSE_OPERATION_NON_TRANSPOSE /\
    op_activation (this s) = CUSPARSE_OPERATION_NON_TRANSPOSE /\
    stream (this s) = nullptr /\
    (num_A_rows L, num_A_cols L, lda L) = (m, k, k) /\
    (num_B_rows L, num_B_cols L, ldb L) = (k, n, n) /\
    (num_C_rows L, num_C_cols L, ldc L) = (m, n, n).
Proof.
  intros s m k n H L.
  destruct (reachable_well_kept s H) as (_ & _ & _ & _ & Hw & Ha & Hs).
  unfold L, layout. rewrite Hw, Ha. cbn. repeat split; assumption.
Qed.

Lemma reachable_sessions_are_never_transposed_witness :
  reachable session_after_two_calls /\
  op_weight (this session_after_two_calls) = CUSPARSE_OPERATION_NON_TRANSPOSE.
Proof.
  split; [exact session_after_two_calls_reachable|].
  exact (proj1 (reachable_sessions_are_never_transposed
                  session_after_two_calls 2 4 3
                  session_after_two_calls_reachable)).
Defined.

(* ------------------------------------------------------------------ *)
(** ** Sizes *)

Lemma mul_size_t_exact (a b : Z) :
  0 <= a -> 0 <= b -> a * b < 2 ^ 64 -> mul_size_t a b = a * b.
Proof.
  intros Ha Hb H. unfold mul_size_t, to_size_t.
  destruct (Z.eq_dec b 0) as [->|Hb0].
  - rewrite !Z.mul_0_r. reflexivity.
  - assert (a < 2 ^ 64) by nia.
    rewrite (Z.mod_small a) by lia. rewrite Z.mod_small by nia. reflexivity.
Qed.

(** X8.  Lines 108-112, for non-negative sizes and batch count whose
    products stay in range: the host array has [num_batches * m * n]
    elements, and the three device buffers are asked two bytes per element
    of [num_batches] matrices of [m x k], [k x n] and [m x n]. *)
Theorem layout_byte_counts :
  forall (ord : cusparseOrder_t) (o : CusparseLtLinear) (m k n : Z),
    0 <= num_batches o -> 0 <= m -> 0 <= k -> 0 <= n ->
    2 * (num_batches o * (m * k)) < 2 ^ 63 ->
    2 * (num_batches o * (k * n)) < 2 ^ 63 ->
    2 * (num_batches o * (m * n)) < 2 ^ 63 ->
    in_i64 (m * k) -> in_i64 (k * n) -> in_i64 (m * n) ->
    let L := layout ord o m k n in
    C_size L = num_batches o * (m * n) /\
    A_size_bytes L = 2 * (num_batches o * (m * k)) /\
    B_size_bytes L = 2 * (num_batches o * (k * n)) /\
    C_size_bytes L = 2 * (num_batches o * (m * n)).
Proof.
  intros ord o m k n Hnb Hm Hk Hn HA HB HC Imk Ikn Imn L.
  assert (PA : 0 <= num_batches o * (m * k))
    by (repeat apply Z.mul_nonneg_nonneg; lia).
  assert (PB : 0 <= num_batches o * (k * n))
    by (repeat apply Z.mul_nonneg_nonneg; lia).
  assert (PC : 0 <= num_batches o * (m * n))
    by (repeat apply Z.mul_nonneg_nonneg; lia).
  assert (EA : mul_i64 (num_batches o) (mul_i64 m k) = num_batches o * (m * k)).
  { rewrite (mul_i64_exact m k Imk). apply mul_i64_exact. unfold in_i64. lia. }
  assert (EB : mul_i64 (num_batches o) (mul_i64 k n) = num_batches o * (k * n)).
  { rewrite (mul_i64_exact k n Ikn). apply mul_i64_exact. unfold in_i64. lia. }
  assert (EC : mul_i64 (num_batches o) (mul_i64 m n) = num_batches o * (m * n)).
  { rewrite (mul_i64_exact m n Imn). apply mul_i64_exact. unfold in_i64. lia. }
  unfold L, layout.
  cbv beta iota zeta delta [C_size A_size_bytes B_size_bytes C_size_bytes].
  rewrite EA, EB, EC. unfold sizeof_Half, sizeof_half.
  rewrite !mul_size_t_exact by lia.
  repeat split; lia.
Qed.

Lemma layout_byte_counts_witness :
  A_size_bytes (layout order (construct weight_2x4 3) 2 4 5) = 2 * (3 * (2 * 4)).
Proof.
  assert (H8 : in_i64 (2 * 4)) by (unfold in_i64; lia).
  assert (H20 : in_i64 (4 * 5)) by (unfold in_i64; lia).
  assert (H10 : in_i64 (2 * 5)) by (unfold in_i64; lia).
  exact (proj1 (proj2 (layout_byte_counts order (construct weight_2x4 3) 2 4 5
                         ltac:(cbn; lia) ltac:(lia) ltac:(lia) ltac:(lia)
                         ltac:(cbn; lia) ltac:(cbn; lia) ltac:(cbn; lia)
                         H8 H20 H10))).
Defined.

(** X9.  In a run of [init] that completes, the five [cudaMalloc] calls
    ask, in this order, for the byte counts of the weight, the activation
    and the output of lines 110-112, for eight bytes, and for [m] floats;
    the four host-to-device copies move the same byte counts as the
    allocations of their destinations; and the host array was requested
    with [C_size] elements. *)
Theorem init_requests_and_uploads_agree :
  forall (dev : Device) (gpu_index : Z) (activation res bias : Tensor)
         (s : State) (m k n : Z) (rest_w rest_a : list Z),
    sizes (weight (this s)) = m :: k :: rest_w ->
    sizes activation = n :: rest_a ->
    fst (init dev gpu_index activation res bias s) = Ok tt ->
    let L := layout order (this s) m k n in
    exists seg,
      calls (snd (init dev gpu_index activation res bias s)) = seg ++ calls s /\
      malloc_sizes (rev seg)
      = [A_size_bytes L; B_size_bytes L; C_size_bytes L; sizeof_pointer;
         mul_size_t m sizeof_float] /\
      upload_counts (rev seg)
      = [A_size_bytes L; B_size_bytes L; C_size_bytes L;
         mul_size_t m sizeof_float] /\
      In (OperatorNewArray (C_size L)) seg.
Proof.
  intros dev gpu_index activation res bias s m k n rest_w rest_a Hw Ha.
  by_wp (init dev gpu_index activation res bias) s. unfold init.
  repeat (wp_step; settle_sizes); try (intro; discriminate).
  intros _. eexists. split; [cbn; segment|].
  split; [reflexivity|]. split; [reflexivity|].
  cbn. do 26 right. left. reflexivity.
Qed.

Lemma init_requests_and_uploads_agree_witness :
  fst completed_init = Ok tt /\
  exists seg,
    calls (snd completed_init) = seg ++ calls fresh_session /\
    malloc_sizes (rev seg) = [16; 24; 12; 8; 8] /\
    upload_counts (rev seg) = [16; 24; 12; 8] /\
    In (OperatorNewArray 6) seg.
Proof.
  split; [reflexivity|].
  exact (init_requests_and_uploads_agree
           (failing 0 0 0) 0 activation_3x4 output_2x3 bias_2
           fresh_session 2 4 3 [] [4] eq_refl eq_refl eq_refl).
Defined.

(* ------------------------------------------------------------------ *)
(** ** init: inputs it cannot use *)

(** X10.  When the element count of the host array, [num_batches * m * n]
    as line 108 computes it, is negative, no run of [init] completes, and
    none gets as far as an allocation: the session and the live blocks are
    as before, and no [cudaMalloc] and no host allocation was issued. *)
Theorem init_refuses_a_negative_element_count :
  forall (dev : Device) (gpu_index : Z) (activation res bias : Tensor)
         (s : State) (m k n : Z) (rest_w rest_a : list Z),
    sizes (weight (this s)) = m :: k :: rest_w ->
    sizes activation = n :: rest_a ->
    C_size (layout order (this s) m k n) < 0 ->
    let r := init dev gpu_index activation res bias s in
    fst r <> Ok tt /\
    live (snd r) = live s /\
    this (snd r) = this s /\
    exists seg,
      calls (snd r) = seg ++ calls s /\
      forallb (fun c => negb (is_malloc c || is_host_new c)) seg = true.
Proof.
  intros dev gpu_index activation res bias s m k n rest_w rest_a Hw Ha HC r.
  subst r.
  by_wp (init dev gpu_index activation res bias) s. unfold init.
  repeat (wp_step; settle_sizes;
          try stopped_early;
          try match goal with
              | H : 0 <= C_size _ <= _ /\ _ |- _ => exfalso; cbn in H; lia
              end).
Qed.

Lemma init_refuses_a_negative_element_count_witness :
  C_size (layout order (this negative_batches_session) 2 4 3) = -6 /\
  fst (init (failing 0 0 0) 0 activation_3x4 output_2x3 bias_2
         negative_batches_session) = Err BadArrayNewLength /\
  fst (init (failing 0 0 0) 0 activation_3x4 output_2x3 bias_2
         negative_batches_session) <> Ok tt.
Proof.
  split; [reflexivity|]. split; [reflexivity|].
  exact (proj1 (init_refuses_a_negative_element_count
                  (failing 0 0 0) 0 activation_3x4 output_2x3 bias_2
                  negative_batches_session 2 4 3 [] [4]
                  eq_refl eq_refl eq_refl)).
Defined.

(** X11.  When the weight has fewer than two sizes (as in a
    default-constructed session) or the activation has none, no run of
    [init] completes and none gets as far as an allocation. *)
Theorem init_needs_the_sizes_it_reads :
  forall (dev : Device) (gpu_index : Z) (activation res bias : Tensor) (s : State),
    (List.length (sizes (weight (this s))) < 2)%nat \/ sizes activation = [] ->
    let r := init dev gpu_index activation res bias s in
    fst r <> Ok tt /\
    live (snd r) = live s /\
    this (snd r) = this s /\
    exists seg,
      calls (snd r) = seg ++ calls s /\
      forallb (fun c => negb (is_malloc c || is_host_new c)) seg = true.
Proof.
  intros dev gpu_index activation res bias s Hsizes r. subst r.
  by_wp (init dev gpu_index activation res bias) s. unfold init.
  destruct Hsizes as [Hw|Ha].
  - destruct (sizes (weight (this s))) as [|x [|y l]] eqn:Hw';
      [ | | cbn in Hw; lia ];
      repeat (wp_step; settle_sizes; try stopped_early).
  - repeat (wp_step; settle_sizes; try stopped_early).
Qed.

Lemma init_needs_the_sizes_it_reads_witness :
  fst (init (failing 0 0 0) 0 activation_3x4 output_2x3 bias_2
         (boot construct_default)) = Err (DimensionOutOfRange 0) /\
  fst (init (failing 0 0 0) 0 activation_3x4 output_2x3 bias_2
         (boot construct_default)) <> Ok tt.
Proof.
  split; [reflexivity|].
  assert (H : (List.length (sizes (weight (this (boot construct_default)))) < 2)%nat
              \/ sizes activation_3x4 = [])
    by (left; cbn; lia).
  exact (proj1 (init_needs_the_sizes_it_reads
                  (failing 0 0 0) 0 activation_3x4 output_2x3 bias_2
                  (boot construct_default) H)).
Defined.

(* ------------------------------------------------------------------ *)
(** ** init: the order of the library calls *)

Lemma preceded_sound (need target : Call -> bool) (chron : list Call) :
  preceded need target chron = true -> comes_after need target chron.
Proof.
  induction chron as [|x rest IH]; intros Hchk pre c post Heq Hc.
  - destruct pre; discriminate.
  - cbn in Hchk. destruct (target x) eqn:Hx; [discriminate|].
    destruct pre as [|y pre']; cbn in Heq; injection Heq as -> Hrest.
    + rewrite Hc in Hx. discriminate.
    + destruct (need y) eqn:Hy.
      * exists y. split; [left; reflexivity | exact Hy].
      * destruct (IH Hchk pre' c post Hrest Hc) as (z & Hz & Hnz).
        exists z. split; [right; exact Hz | exact Hnz].
Qed.

(** X12.  In the calls of any run of [init], in the order they were
    issued: every cusparseLt call comes after [cusparseLtInit], which is
    issued at most once; each initialisation of the matmul descriptor comes
    after the initialisation of the three matrix descriptors; and the plan
    is initialised after the algorithm selection and after the workspace
    query. *)
Theorem init_orders_its_library_calls :
  forall (dev : Device) (gpu_index : Z) (activation res bias : Tensor) (s : State),
  exists seg,
    calls (snd (init dev gpu_index activation res bias s)) = seg ++ calls s /\
    (List.length (filter is_handle_init seg) <= 1)%nat /\
    comes_after is_handle_init
      (fun c => is_cusparseLt c && negb (is_handle_init c)) (rev seg) /\
    comes_after (is_matrix_descriptor_init weight_descriptor)
      is_matmul_descriptor_init (rev seg) /\
    comes_after (is_matrix_descriptor_init activation_descriptor)
      is_matmul_descriptor_init (rev seg) /\
    comes_after (is_matrix_descriptor_init matC)
      is_matmul_descriptor_init (rev seg) /\
    comes_after is_alg_selection_init is_plan_init (rev seg) /\
    comes_after is_get_workspace is_plan_init (rev seg).
Proof.
  intros dev gpu_index activation res bias s.
  by_wp (init dev gpu_index activation res bias) s. unfold init.
  repeat wp_step;
    (eexists; split; [cbn; segment|]; split; [cbn; lia|];
     repeat split; apply preceded_sound; reflexivity).
Qed.

(* ------------------------------------------------------------------ *)
(** ** masked_mm, compress and prune *)

Lemma masked_mm_step (dev : Device) (s : State) :
  snd (masked_mm dev s) = record (matmul_call (this s)) s.
Proof. run; reflexivity. Qed.

(** X13.  Calling [masked_mm] [n] times in a row, whether the calls throw
    or not, leaves the session and the live blocks as they were and issues
    the same matmul call [n] times. *)
Theorem masked_mm_repeated :
  forall (dev : Device) (n : nat) (s : State),
    this (masked_mm_times dev n s) = this s /\
    live (masked_mm_times dev n s) = live s /\
    calls (masked_mm_times dev n s) = repeat (matmul_call (this s)) n ++ calls s.
Proof.
  intros dev n s. induction n as [|n (IHthis & IHlive & IHcalls)].
  - repeat split.
  - cbn [masked_mm_times]. rewrite masked_mm_step.
    cbn. rewrite IHthis, IHlive, IHcalls. repeat split.
Qed.

(** X14.  What a run of [compress] can end in.  It completes only after
    its three calls (size query, allocation, compression from [dA] into
    [dA_compressed]) were issued in this order, with no block allocated
    and [dA_compressed] as it was.  Otherwise it throws on line 231, 233
    or 235 with status 0; only the throw of line 233 leaves a block, the
    next fresh one, held by [dA_compressed]. *)
Theorem compress_outcomes :
  forall (dev : Device) (s : State),
    let r := compress dev s in
    match fst r with
    | Ok _ =>
        dA_compressed (this (snd r)) = dA_compressed (this s) /\
        live (snd r) = live s /\
        exists size_,
          calls (snd r)
          = CusparseLtSpMMACompress2 (op_weight (this s)) (dA (this s))
              (dA_compressed (this s)) (stream (this s))
            :: CudaMalloc size_
            :: CusparseLtSpMMACompressedSize2 :: calls s
    | Err (CusparseApiFailed 231 0) =>
        snd r = record CusparseLtSpMMACompressedSize2 s
    | Err (CudaApiFailed 233 0) =>
        dA_compressed (this (snd r)) = Dev (next_dev s) /\
        live (snd r) = next_dev s :: live s
    | Err (CusparseApiFailed 235 0) =>
        dA_compressed (this (snd r)) = dA_compressed (this s) /\
        live (snd r) = live s
    | Err _ => False
    end.
Proof.
  intros dev s r. subst r. run; zero_status; eauto.
Qed.

(** X15.  What a run of [prune] can end in.  The session is never changed.
    A run completes only after all five calls were issued, with no block
    allocated; otherwise it throws on line 212, 216, 217, 220 or 221 with
    status 0 after one to five calls, and only the throw of line 216
    leaves a block, the next fresh one. *)
Theorem prune_outcomes :
  forall (dev : Device) (s : State),
    let r := prune dev s in
    this (snd r) = this s /\
    exists seg,
      calls (snd r) = seg ++ calls s /\
      match fst r with
      | Ok _ => live (snd r) = live s /\ List.length seg = 5%nat
      | Err (CusparseApiFailed 212 0) =>
          live (snd r) = live s /\ List.length seg = 1%nat
      | Err (CudaApiFailed 216 0) =>
          live (snd r) = next_dev s :: live s /\ List.length seg = 2%nat
      | Err (CusparseApiFailed 217 0) =>
          live (snd r) = live s /\ List.length seg = 3%nat
      | Err (CudaApiFailed 220 0) =>
          live (snd r) = live s /\ List.length seg = 4%nat
      | Err (CudaApiFailed 221 0) =>
          live (snd r) = live s /\ List.length seg = 5%nat
      | Err _ => False
      end.
Proof.
  intros dev s r. subst r.
  split; [run; reflexivity|].
  run; zero_status; (eexists; split; [segment | split; reflexivity]).
Qed.
